(** * AI Stock Analyst: the controller of [App.tsx] and its watchlist store

    A shallow embedding of the state handling of the [App] component:
    the watchlist updaters, the submit handler, and the two effects that
    mirror the watchlist to [localStorage]. *)

From Stdlib Require Import List NArith Bool String Ascii Lia.
Import ListNotations.

Set Warnings "-register-all,-notation-for-abbreviation".
Local Open Scope N_scope.

(** ** JavaScript strings

    A JavaScript string is a sequence of UTF-16 code units. *)

Notation codeunit := N (only parsing).
Notation jsstring := (list N).

(** A source literal, written in ASCII. *)
Definition lit (s : string) : jsstring :=
  map N_of_ascii (list_ascii_of_string s).

Definition wf_codeunit (c : codeunit) : Prop := c < 0x10000.
Definition wf_string (s : jsstring) : Prop := Forall wf_codeunit s.

(** [a === b] on two strings: the same sequence of code units. *)
Fixpoint str_eqb (a b : jsstring) : bool :=
  match a, b with
  | [], [] => true
  | x :: a', y :: b' => (x =? y) && str_eqb a' b'
  | _, _ => false
  end.

(** A string in a boolean context: only the empty string is falsy. *)
Definition truthy (s : jsstring) : bool :=
  match s with
  | [] => false
  | _ :: _ => true
  end.

(** WhiteSpace and LineTerminator code points, the ones
    [String.prototype.trim] strips: TAB, LF, VT, FF, CR, SP, NBSP,
    U+1680, U+2000..U+200A, LS, PS, U+202F, U+205F, U+3000 and the BOM. *)
Definition isWhiteSpace (c : codeunit) : bool :=
  (c =? 0x9) || (c =? 0xA) || (c =? 0xB) || (c =? 0xC) || (c =? 0xD)
  || (c =? 0x20) || (c =? 0xA0) || (c =? 0x1680)
  || ((0x2000 <=? c) && (c <=? 0x200A))
  || (c =? 0x2028) || (c =? 0x2029) || (c =? 0x202F) || (c =? 0x205F)
  || (c =? 0x3000) || (c =? 0xFEFF).

Fixpoint trimStart (s : jsstring) : jsstring :=
  match s with
  | [] => []
  | c :: r => if isWhiteSpace c then trimStart r else s
  end.

Definition trimEnd (s : jsstring) : jsstring := rev (trimStart (rev s)).

Definition trim (s : jsstring) : jsstring := trimEnd (trimStart s).

(** A string is blank when it is empty or holds white space only. *)
Definition isBlank (s : jsstring) : bool := forallb isWhiteSpace s.

(** ** types.ts *)

Module Types.

Record Stock := {
  ticker : jsstring;
  companyName : jsstring;
  growthPotential : jsstring;
  publicSentiment : jsstring
}.

Record Source := {
  uri : jsstring;
  title : jsstring
}.

Record GeminiStockResponse := {
  stocks : list Stock;
  sources : list Source
}.

End Types.
Import Types.

(** The strings of a stock hold 16-bit code units. *)
Definition wf_stock (s : Stock) : Prop :=
  wf_string (ticker s) /\ wf_string (companyName s)
  /\ wf_string (growthPotential s) /\ wf_string (publicSentiment s).

(** ** JSON, as [JSON.stringify] writes a [Stock[]] and [JSON.parse] reads
    a text *)

Module JSON.

Inductive json :=
| JNull
| JBool (b : bool)
| JNumber (lexeme : jsstring)
| JString (s : jsstring)
| JArray (elements : list json)
| JObject (members : list (jsstring * json)).

(** *** Writing *)

(** A hexadecimal digit in lower case. *)
Definition hexDigit (d : N) : codeunit :=
  if d <? 10 then 48 + d else 87 + d.

(** [\uXXXX] *)
Definition UnicodeEscape (c : codeunit) : jsstring :=
  [92; 117; hexDigit (c / 4096 mod 16); hexDigit (c / 256 mod 16);
   hexDigit (c / 16 mod 16); hexDigit (c mod 16)].

Definition isLeadingSurrogate (c : codeunit) : bool :=
  (0xD800 <=? c) && (c <=? 0xDBFF).

Definition isTrailingSurrogate (c : codeunit) : bool :=
  (0xDC00 <=? c) && (c <=? 0xDFFF).

(** A code unit that is no surrogate: the two-character escapes, a
    [\u] escape for the other control characters, itself otherwise. *)
Definition quoteUnit (c : codeunit) : jsstring :=
  if c =? 8 then [92; 98]
  else if c =? 9 then [92; 116]
  else if c =? 10 then [92; 110]
  else if c =? 12 then [92; 102]
  else if c =? 13 then [92; 114]
  else if c =? 34 then [92; 34]
  else if c =? 92 then [92; 92]
  else if c <? 32 then UnicodeEscape c
  else [c].

(** A surrogate pair is written as it is, a lone surrogate escaped. *)
Fixpoint quoteBody (s : jsstring) : jsstring :=
  match s with
  | [] => []
  | c :: r =>
      if isLeadingSurrogate c then
        match r with
        | d :: r' =>
            if isTrailingSurrogate d then c :: d :: quoteBody r'
            else UnicodeEscape c ++ quoteBody r
        | [] => UnicodeEscape c
        end
      else if isTrailingSurrogate c then UnicodeEscape c ++ quoteBody r
      else quoteUnit c ++ quoteBody r
  end.

Definition QuoteJSONString (s : jsstring) : jsstring :=
  34 :: quoteBody s ++ [34].

Definition serializeProperty (key value : jsstring) : jsstring :=
  QuoteJSONString key ++ 58 :: QuoteJSONString value.

(** The properties of a [Stock], in the order of the interface. *)
Definition serializeStock (s : Stock) : jsstring :=
  123 :: serializeProperty (lit "ticker") (ticker s)
  ++ 44 :: serializeProperty (lit "companyName") (companyName s)
  ++ 44 :: serializeProperty (lit "growthPotential") (growthPotential s)
  ++ 44 :: serializeProperty (lit "publicSentiment") (publicSentiment s)
  ++ [125].

Fixpoint joinComma (l : list jsstring) : jsstring :=
  match l with
  | [] => []
  | [x] => x
  | x :: l' => x ++ 44 :: joinComma l'
  end.

(** [JSON.stringify(watchlist)] *)
Definition stringify (W : list Stock) : jsstring :=
  91 :: joinComma (map serializeStock W) ++ [93].

(** *** Reading *)

Definition isJSONWhiteSpace (c : codeunit) : bool :=
  (c =? 9) || (c =? 10) || (c =? 13) || (c =? 32).

Fixpoint skipWS (s : jsstring) : jsstring :=
  match s with
  | [] => []
  | c :: r => if isJSONWhiteSpace c then skipWS r else s
  end.

Definition hexValue (c : codeunit) : option N :=
  if (48 <=? c) && (c <=? 57) then Some (c - 48)
  else if (97 <=? c) && (c <=? 102) then Some (c - 87)
  else if (65 <=? c) && (c <=? 70) then Some (c - 55)
  else None.

(** The character after a backslash, [u] apart. *)
Definition escapeValue (c : codeunit) : option codeunit :=
  if c =? 34 then Some 34
  else if c =? 92 then Some 92
  else if c =? 47 then Some 47
  else if c =? 98 then Some 8
  else if c =? 102 then Some 12
  else if c =? 110 then Some 10
  else if c =? 114 then Some 13
  else if c =? 116 then Some 9
  else None.

(** The characters of a string up to its closing quote, and the text
    after it. *)
Fixpoint parseChars (s : jsstring) : option (jsstring * jsstring) :=
  match s with
  | [] => None
  | c :: r =>
      if c =? 34 then Some ([], r)
      else if c =? 92 then
        match r with
        | [] => None
        | e :: r1 =>
            if e =? 117 then
              match r1 with
              | h3 :: h2 :: h1 :: h0 :: r2 =>
                  match hexValue h3, hexValue h2, hexValue h1, hexValue h0 with
                  | Some a, Some b, Some c', Some d =>
                      match parseChars r2 with
                      | Some (t, rest) =>
                          Some (((a * 16 + b) * 16 + c') * 16 + d :: t, rest)
                      | None => None
                      end
                  | _, _, _, _ => None
                  end
              | _ => None
              end
            else
              match escapeValue e with
              | Some x =>
                  match parseChars r1 with
                  | Some (t, rest) => Some (x :: t, rest)
                  | None => None
                  end
              | None => None
              end
        end
      else if c <? 32 then None
      else
        match parseChars r with
        | Some (t, rest) => Some (c :: t, rest)
        | None => None
        end
  end.

Definition isDigit (c : codeunit) : bool := (48 <=? c) && (c <=? 57).

Fixpoint spanDigits (s : jsstring) : jsstring * jsstring :=
  match s with
  | [] => ([], [])
  | c :: r =>
      if isDigit c then
        let (d, rest) := spanDigits r in (c :: d, rest)
      else ([], s)
  end.

(** [0], or a digit that is not [0] and then digits. *)
Definition parseInt (s : jsstring) : option (jsstring * jsstring) :=
  match s with
  | [] => None
  | c :: r =>
      if c =? 48 then Some ([48], r)
      else if isDigit c then
        let (d, rest) := spanDigits r in Some (c :: d, rest)
      else None
  end.

Definition parseDigits1 (s : jsstring) : option (jsstring * jsstring) :=
  match spanDigits s with
  | ([], _) => None
  | (d, rest) => Some (d, rest)
  end.

Definition parseFrac (s : jsstring) : option (jsstring * jsstring) :=
  match s with
  | c :: r =>
      if c =? 46 then
        match parseDigits1 r with
        | Some (d, rest) => Some (c :: d, rest)
        | None => None
        end
      else Some ([], s)
  | [] => Some ([], s)
  end.

Definition parseSign (s : jsstring) : jsstring * jsstring :=
  match s with
  | c :: r => if (c =? 43) || (c =? 45) then ([c], r) else ([], s)
  | [] => ([], s)
  end.

Definition parseExp (s : jsstring) : option (jsstring * jsstring) :=
  match s with
  | c :: r =>
      if (c =? 101) || (c =? 69) then
        let (sg, r') := parseSign r in
        match parseDigits1 r' with
        | Some (d, rest) => Some (c :: sg ++ d, rest)
        | None => None
        end
      else Some ([], s)
  | [] => Some ([], s)
  end.

(** A number, kept as its lexeme. *)
Definition parseNumber (s : jsstring) : option (jsstring * jsstring) :=
  let (minus, s0) :=
    match s with
    | c :: r => if c =? 45 then ([c], r) else ([], s)
    | [] => ([], s)
    end in
  match parseInt s0 with
  | Some (i, s1) =>
      match parseFrac s1 with
      | Some (f, s2) =>
          match parseExp s2 with
          | Some (e, s3) => Some (minus ++ i ++ f ++ e, s3)
          | None => None
          end
      | None => None
      end
  | None => None
  end.

Fixpoint stripPrefix (p s : jsstring) : option jsstring :=
  match p, s with
  | [], _ => Some s
  | x :: p', y :: s' => if x =? y then stripPrefix p' s' else None
  | _ :: _, [] => None
  end.

Inductive Parsed (A : Type) :=
| Ok (a : A) (rest : jsstring)
| Syntax
| Fuel.
Arguments Ok {A} a rest.
Arguments Syntax {A}.
Arguments Fuel {A}.

Definition keyword (word : string) (v : json) (s : jsstring) : Parsed json :=
  match stripPrefix (lit word) s with
  | Some rest => Ok v rest
  | None => Syntax
  end.

Fixpoint parseValue (fuel : nat) (s : jsstring) : Parsed json :=
  match fuel with
  | O => Fuel
  | S fuel' =>
      match skipWS s with
      | [] => Syntax
      | c :: r =>
          if c =? 34 then
            match parseChars r with
            | Some (t, rest) => Ok (JString t) rest
            | None => Syntax
            end
          else if c =? 91 then
            match skipWS r with
            | [] => Syntax
            | d :: r' =>
                if d =? 93 then Ok (JArray []) r'
                else
                  match parseElements fuel' r with
                  | Ok vs rest => Ok (JArray vs) rest
                  | Syntax => Syntax
                  | Fuel => Fuel
                  end
            end
          else if c =? 123 then
            match skipWS r with
            | [] => Syntax
            | d :: r' =>
                if d =? 125 then Ok (JObject []) r'
                else
                  match parseMembers fuel' r with
                  | Ok ms rest => Ok (JObject ms) rest
                  | Syntax => Syntax
                  | Fuel => Fuel
                  end
            end
          else if c =? 116 then keyword "true" (JBool true) (c :: r)
          else if c =? 102 then keyword "false" (JBool false) (c :: r)
          else if c =? 110 then keyword "null" JNull (c :: r)
          else
            match parseNumber (c :: r) with
            | Some (lexeme, rest) => Ok (JNumber lexeme) rest
            | None => Syntax
            end
      end
  end

with parseElements (fuel : nat) (s : jsstring) : Parsed (list json) :=
  match fuel with
  | O => Fuel
  | S fuel' =>
      match parseValue fuel' s with
      | Ok v rest =>
          match skipWS rest with
          | [] => Syntax
          | d :: r =>
              if d =? 44 then
                match parseElements fuel' r with
                | Ok vs rest' => Ok (v :: vs) rest'
                | Syntax => Syntax
                | Fuel => Fuel
                end
              else if d =? 93 then Ok [v] r
              else Syntax
          end
      | Syntax => Syntax
      | Fuel => Fuel
      end
  end

with parseMembers (fuel : nat) (s : jsstring)
  : Parsed (list (jsstring * json)) :=
  match fuel with
  | O => Fuel
  | S fuel' =>
      match skipWS s with
      | [] => Syntax
      | c :: r =>
          if c =? 34 then
            match parseChars r with
            | None => Syntax
            | Some (key, rest) =>
                match skipWS rest with
                | [] => Syntax
                | d :: r1 =>
                    if d =? 58 then
                      match parseValue fuel' r1 with
                      | Ok v rest1 =>
                          match skipWS rest1 with
                          | [] => Syntax
                          | e :: r2 =>
                              if e =? 44 then
                                match parseMembers fuel' r2 with
                                | Ok ms rest2 => Ok ((key, v) :: ms) rest2
                                | Syntax => Syntax
                                | Fuel => Fuel
                                end
                              else if e =? 125 then Ok [(key, v)] r2
                              else Syntax
                          end
                      | Syntax => Syntax
                      | Fuel => Fuel
                      end
                    else Syntax
                end
            end
          else Syntax
      end
  end.

(** Every call spends one unit of fuel and at most two calls follow
    each other on the same input, so this is enough for any text. *)
Definition fuelFor (text : jsstring) : nat := S (2 * List.length text).

(** [JSON.parse(text)]: the value, or [None] for a [SyntaxError]. *)
Definition parse (text : jsstring) : option json :=
  match parseValue (fuelFor text) text with
  | Ok v rest =>
      match skipWS rest with
      | [] => Some v
      | _ :: _ => None
      end
  | Syntax => None
  | Fuel => None
  end.

(** *** A parsed value as a [Stock[]] *)

(** [o[key]]; of two members with one key the later one stays. *)
Fixpoint getProperty (key : jsstring) (members : list (jsstring * json))
  : option json :=
  match members with
  | [] => None
  | (k, v) :: ms =>
      match getProperty key ms with
      | Some v' => Some v'
      | None => if str_eqb k key then Some v else None
      end
  end.

Definition getString (key : string) (members : list (jsstring * json))
  : option jsstring :=
  match getProperty (lit key) members with
  | Some (JString s) => Some s
  | _ => None
  end.

(** The object as a [Stock]: its four properties, each a string. *)
Definition asStock (j : json) : option Stock :=
  match j with
  | JObject ms =>
      match getString "ticker" ms, getString "companyName" ms,
            getString "growthPotential" ms, getString "publicSentiment" ms
      with
      | Some t, Some c, Some g, Some p =>
          Some {| ticker := t; companyName := c;
                  growthPotential := g; publicSentiment := p |}
      | _, _, _, _ => None
      end
  | _ => None
  end.

Fixpoint asStocks (l : list json) : option (list Stock) :=
  match l with
  | [] => Some []
  | j :: l' =>
      match asStock j, asStocks l' with
      | Some s, Some W => Some (s :: W)
      | _, _ => None
      end
  end.

Definition asWatchlist (j : json) : option (list Stock) :=
  match j with
  | JArray l => asStocks l
  | _ => None
  end.

(** The value [parse] makes of a serialized [Stock]. *)
Definition stockValue (s : Stock) : json :=
  JObject [(lit "ticker", JString (ticker s));
           (lit "companyName", JString (companyName s));
           (lit "growthPotential", JString (growthPotential s));
           (lit "publicSentiment", JString (publicSentiment s))].

End JSON.

(** ** The component state and the effects of its handlers *)

Inductive View := ViewSearch | ViewWatchlist.

(** What a rejected promise carries: an [Error] object with its message,
    or any other thrown value. *)
Inductive Thrown :=
| ErrorObject (message : jsstring)
| NotAnError.

(** How the promise returned by [fetchPromisingStocks] settles. *)
Inductive Settled :=
| Fulfilled (result : GeminiStockResponse)
| Rejected (err : Thrown).

(** The exceptions of the storage effects. *)
Inductive StorageExn := SecurityError | SyntaxError | QuotaExceededError.

Module App.

Record State := {
  query : jsstring;
  stocks : list Stock;
  sources : list Source;
  loading : bool;
  error : option jsstring;
  watchlist : list Stock;
  view : View
}.

(** The arguments of the [useState] calls. *)
Definition initial : State := {|
  query := lit "AI technology stocks";
  stocks := [];
  sources := [];
  loading := false;
  error := None;
  watchlist := [];
  view := ViewSearch
|}.

(** What a handler does, in program order: calls of the state setters,
    of the service client and of [console.error]. *)
Inductive Effect :=
| SetQuery (q : jsstring)
| SetStocks (l : list Stock)
| SetSources (l : list Source)
| SetLoading (b : bool)
| SetError (e : option jsstring)
| SetWatchlist (updater : list Stock -> list Stock)
| SetView (v : View)
| Fetch (q : jsstring)
| ConsoleError (msg : jsstring) (e : StorageExn).

Definition apply (e : Effect) (st : State) : State :=
  match e with
  | SetQuery q =>
      {| query := q; stocks := stocks st; sources := sources st;
         loading := loading st; error := error st;
         watchlist := watchlist st; view := view st |}
  | SetStocks l =>
      {| query := query st; stocks := l; sources := sources st;
         loading := loading st; error := error st;
         watchlist := watchlist st; view := view st |}
  | SetSources l =>
      {| query := query st; stocks := stocks st; sources := l;
         loading := loading st; error := error st;
         watchlist := watchlist st; view := view st |}
  | SetLoading b =>
      {| query := query st; stocks := stocks st; sources := sources st;
         loading := b; error := error st;
         watchlist := watchlist st; view := view st |}
  | SetError e =>
      {| query := query st; stocks := stocks st; sources := sources st;
         loading := loading st; error := e;
         watchlist := watchlist st; view := view st |}
  | SetWatchlist updater =>
      {| query := query st; stocks := stocks st; sources := sources st;
         loading := loading st; error := error st;
         watchlist := updater (watchlist st); view := view st |}
  | SetView v =>
      {| query := query st; stocks := stocks st; sources := sources st;
         loading := loading st; error := error st;
         watchlist := watchlist st; view := v |}
  | Fetch _ => st
  | ConsoleError _ _ => st
  end.

(** The state after a handler's effects, applied in order. *)
Fixpoint run (es : list Effect) (st : State) : State :=
  match es with
  | [] => st
  | e :: es' => run es' (apply e st)
  end.

(** The queries the service client was invoked with. *)
Fixpoint fetched (es : list Effect) : list jsstring :=
  match es with
  | [] => []
  | Fetch q :: es' => q :: fetched es'
  | _ :: es' => fetched es'
  end.

(** The effects that precede the first invocation of the service
    client. *)
Fixpoint beforeFetch (es : list Effect) : list Effect :=
  match es with
  | [] => []
  | Fetch _ :: _ => []
  | e :: es' => e :: beforeFetch es'
  end.

(** *** The watchlist *)

(** [prev.some(s => s.ticker === t)] *)
Definition hasTicker (t : jsstring) (prev : list Stock) : bool :=
  existsb (fun s => str_eqb (ticker s) t) prev.

(** The updater [handleAddToWatchlist] passes to [setWatchlist]. *)
Definition addUpdater (stock : Stock) (prev : list Stock) : list Stock :=
  if hasTicker (ticker stock) prev then prev else prev ++ [stock].

Definition handleAddToWatchlist (stock : Stock) : list Effect :=
  [SetWatchlist (addUpdater stock)].

(** The updater [handleRemoveFromWatchlist] passes to [setWatchlist]. *)
Definition removeUpdater (t : jsstring) (prev : list Stock) : list Stock :=
  filter (fun s => negb (str_eqb (ticker s) t)) prev.

Definition handleRemoveFromWatchlist (t : jsstring) : list Effect :=
  [SetWatchlist (removeUpdater t)].

Definition isStockInWatchlist (st : State) (t : jsstring) : bool :=
  hasTicker t (watchlist st).

(** *** Submitting a query *)

Definition validationMessage : jsstring :=
  lit "Please enter a topic to search for.".

Definition unknownMessage : jsstring :=
  lit "An unknown error occurred.".

(** The template literal of the catch branch. *)
Definition failureMessage (message : jsstring) : jsstring :=
  lit "Failed to fetch stock data: " ++ message ++ lit ". Please try again.".

Section Submit.

(** The service client, an external collaborator. *)
Variable fetchPromisingStocks : jsstring -> Settled.

Definition handleSubmit (currentQuery : jsstring) : list Effect :=
  if negb (truthy (trim currentQuery)) then
    [SetError (Some validationMessage)]
  else
    [SetView ViewSearch; SetLoading true; SetError None;
     SetStocks []; SetSources []]
    ++ Fetch currentQuery
    :: match fetchPromisingStocks currentQuery with
       | Fulfilled result =>
           [SetStocks (Types.stocks result);
            SetSources (Types.sources result)]
       | Rejected (ErrorObject message) =>
           [SetError (Some (failureMessage message))]
       | Rejected NotAnError =>
           [SetError (Some unknownMessage)]
       end
    ++ [SetLoading false].

Definition handleExampleClick (exampleQuery : jsstring) : list Effect :=
  SetQuery exampleQuery :: handleSubmit exampleQuery.

End Submit.

(** [{error && <p ...>{error}</p>}]: the message the page shows. *)
Definition errorBanner (st : State) : option jsstring :=
  match error st with
  | Some msg => if truthy msg then Some msg else None
  | None => None
  end.

(** *** The watchlist in [localStorage] *)

(** What [localStorage.getItem('stockWatchlist')] does: it throws, or
    it returns the stored string, [null] when there is none. *)
Inductive GetItem :=
| GetThrows
| GetReturns (savedWatchlist : option jsstring).

(** What [localStorage.setItem] does: it throws, or it stores. *)
Inductive SetItem := SetThrows | SetStores.

(** What the first effect hands to the setters. [JSON.parse] returns
    [any]: when the value is a [Stock[]] the effect is a typed
    [setWatchlist]; otherwise the state leaves the declared type
    [Stock[]] and this embedding says no more about it. *)
Inductive Mount :=
| Typed (es : list Effect)
| Untyped (value : JSON.json).

Definition loadFailure : jsstring :=
  lit "Could not load watchlist from localStorage".

Definition saveFailure : jsstring :=
  lit "Could not save watchlist to localStorage".

(** The body of the [try] block of the first effect: the exception it
    throws, or what it does. *)
Definition hydrateTry (read : GetItem) : StorageExn + Mount :=
  match read with
  | GetThrows => inl SecurityError
  | GetReturns None => inr (Typed [])
  | GetReturns (Some savedWatchlist) =>
      if truthy savedWatchlist then
        match JSON.parse savedWatchlist with
        | None => inl SyntaxError
        | Some value =>
            match JSON.asWatchlist value with
            | Some W => inr (Typed [SetWatchlist (fun _ => W)])
            | None => inr (Untyped value)
            end
        end
      else inr (Typed [])
  end.

(** The first effect, with its [catch]. *)
Definition hydrate (read : GetItem) : Mount :=
  match hydrateTry read with
  | inl e => Typed [ConsoleError loadFailure e]
  | inr m => m
  end.

(** The second effect, run after every change of the watchlist: the
    stored value afterwards, and the effects. *)
Definition persist (write : SetItem) (st : State) (stored : option jsstring)
  : option jsstring * list Effect :=
  match write with
  | SetStores => (Some (JSON.stringify (watchlist st)), [])
  | SetThrows => (stored, [ConsoleError saveFailure QuotaExceededError])
  end.

(** *** The states of a session *)

Inductive Action :=
| AddToWatchlist (stock : Stock)
| RemoveFromWatchlist (t : jsstring)
| Submit (currentQuery : jsstring) (settled : Settled)
| ExampleClick (exampleQuery : jsstring) (settled : Settled)
| ChangeQuery (q : jsstring)
| ChangeView (v : View).

Definition effects (a : Action) : list Effect :=
  match a with
  | AddToWatchlist stock => handleAddToWatchlist stock
  | RemoveFromWatchlist t => handleRemoveFromWatchlist t
  | Submit q settled => handleSubmit (fun _ => settled) q
  | ExampleClick q settled => handleExampleClick (fun _ => settled) q
  | ChangeQuery q => [SetQuery q]
  | ChangeView v => [SetView v]
  end.

(** The state is created by [useState], hydrated by the first effect
    and then changed by the handlers. [handleSubmit] awaits the
    service, so other handlers can run between its effects: a step
    applies one effect of one handler call. *)
Inductive reachable (read : GetItem) : State -> Prop :=
| reach_created : reachable read initial
| reach_hydrated es :
    hydrate read = Typed es -> reachable read (run es initial)
| reach_step st a e :
    reachable read st -> In e (effects a) -> reachable read (apply e st).

(** No two entries with the same ticker. *)
Definition uniqueTickers (W : list Stock) : Prop := NoDup (map ticker W).

(** The first effect hands over a [Stock[]] without a repeated ticker,
    or nothing at all. *)
Definition hydratesUnique (read : GetItem) : Prop :=
  match hydrate read with
  | Typed es => uniqueTickers (watchlist (run es initial))
  | Untyped _ => False
  end.

(** The number of entries with ticker [t]. *)
Definition countTicker (t : jsstring) (W : list Stock) : nat :=
  List.length (filter (fun s => str_eqb (ticker s) t) W).

End App.
Import App.

(** ** Sample values *)

Module Sample.

Definition nvda : Stock := {|
  ticker := lit "NVDA";
  companyName := lit "NVIDIA Corporation";
  growthPotential := lit "High";
  publicSentiment := lit "Positive"
|}.

Definition nvda' : Stock := {|
  ticker := lit "NVDA";
  companyName := lit "Nvidia";
  growthPotential := lit "Strong data-center demand";
  publicSentiment := lit "Bullish"
|}.

Definition msft : Stock := {|
  ticker := lit "MSFT";
  companyName := lit "Microsoft";
  growthPotential := lit "Steady";
  publicSentiment := lit "Positive"
|}.

(** A name with a quote, a backslash, a tab, a control character, a
    surrogate pair, a lone surrogate and a Greek letter. *)
Definition odd : Stock := {|
  ticker := lit "ODD";
  companyName := [34; 92; 9; 1; 0xD83D; 0xDE00; 0xDC00; 0x3BB];
  growthPotential := [];
  publicSentiment := [0xD800]
|}.

Definition source : Source := {| uri := lit "https://x"; title := lit "Y" |}.

(** A stored value with the same ticker twice. *)
Definition duplicateStorage : jsstring := JSON.stringify [nvda; nvda'].

Definition withWatchlist (W : list Stock) : State :=
  run [SetWatchlist (fun _ => W)] initial.

(** A state with earlier results, shown on the watchlist tab. *)
Definition busy : State := {|
  query := lit "old";
  stocks := [msft];
  sources := [source];
  loading := false;
  error := Some (lit "earlier failure");
  watchlist := [msft];
  view := ViewWatchlist
|}.

End Sample.


(** ** A submission around its [await] *)

Module Async.

(** The effects of a handler after its first invocation of the service
    client: what runs once the awaited promise has settled. *)
Fixpoint afterFetch (es : list Effect) : list Effect :=
  match es with
  | [] => []
  | Fetch _ :: es' => es'
  | _ :: es' => afterFetch es'
  end.

(** Two calls of [handleSubmit] that overlap: the first call runs up to
    its [await], then the second call does, then the promise of the
    second call settles, and the promise of the first call last. *)
Definition overlapped (first second : list Effect) (st : State) : State :=
  run (afterFetch first)
    (run (afterFetch second)
       (run (beforeFetch second)
          (run (beforeFetch first) st))).

(** The same two calls when the promise of the second call is still
    pending. *)
Definition secondSettled (first second : list Effect) (st : State) : State :=
  run (afterFetch second)
    (run (beforeFetch second)
       (run (beforeFetch first) st)).

(** The message the catch branch stores for what was thrown. *)
Definition messageOf (err : Thrown) : jsstring :=
  match err with
  | ErrorObject message => failureMessage message
  | NotAnError => unknownMessage
  end.

End Async.

(** ** What the component returns *)

Module Page.

Definition exampleQueries : list jsstring :=
  [lit "Renewable energy companies";
   lit "Biotechnology breakthroughs";
   lit "E-commerce giants";
   lit "Cybersecurity firms"].

(** A [StockCard] with its [isInWatchlist] property. *)
Record Card := {
  stock : Stock;
  isInWatchlist : bool
}.

(** The two tab buttons with their [aria-pressed], and the count next
    to the second one. *)
Record Tabs := {
  searchPressed : bool;
  watchlistPressed : bool;
  badge : option nat
}.

(** The search form with its properties, and the example buttons, each
    with its [disabled]. *)
Record SearchSection := {
  formQuery : jsstring;
  formLoading : bool;
  exampleButtons : list (jsstring * bool)
}.

Record Results := {
  cards : list Card;
  sourceLinks : option (list Source)
}.

Inductive WatchlistSection :=
| WatchlistCards (shown : list Card)
| WatchlistEmpty.

Record Page := {
  tabs : Tabs;
  searchSection : option SearchSection;
  spinner : bool;
  banner : option jsstring;
  results : option Results;
  watchlistSection : option WatchlistSection
}.

Definition isView (v : View) (st : State) : bool :=
  match view st, v with
  | ViewSearch, ViewSearch => true
  | ViewWatchlist, ViewWatchlist => true
  | _, _ => false
  end.

(** [l.length > 0] *)
Definition nonEmpty {A : Type} (l : list A) : bool :=
  match l with
  | [] => false
  | _ :: _ => true
  end.

Definition render (st : State) : Page := {|
  tabs := {|
    searchPressed := isView ViewSearch st;
    watchlistPressed := isView ViewWatchlist st;
    badge := if nonEmpty (watchlist st)
             then Some (List.length (watchlist st)) else None
  |};
  searchSection :=
    if isView ViewSearch st then
      Some {| formQuery := query st;
              formLoading := loading st;
              exampleButtons := map (fun ex => (ex, loading st)) exampleQueries |}
    else None;
  spinner := loading st;
  banner := errorBanner st;
  results :=
    if negb (loading st) && isView ViewSearch st && nonEmpty (stocks st) then
      Some {| cards :=
                map (fun s => {| stock := s;
                                 isInWatchlist := isStockInWatchlist st (ticker s) |})
                  (stocks st);
              sourceLinks :=
                if nonEmpty (sources st) then Some (sources st) else None |}
    else None;
  watchlistSection :=
    if negb (loading st) && isView ViewWatchlist st then
      Some (if nonEmpty (watchlist st)
            then WatchlistCards
                   (map (fun s => {| stock := s; isInWatchlist := true |})
                      (watchlist st))
            else WatchlistEmpty)
    else None
|}.

End Page.

(** ** A session: the component with the storage of the browser *)

Module Session.

(** The state of the component, the string stored under
    ['stockWatchlist'], and what was written to the console. *)
Record World := {
  state : State;
  stored : option jsstring;
  console : list Effect
}.

Definition isConsoleError (e : Effect) : bool :=
  match e with
  | ConsoleError _ _ => true
  | _ => false
  end.

Definition isSetWatchlist (e : Effect) : bool :=
  match e with
  | SetWatchlist _ => true
  | _ => false
  end.

(** One run of the second effect. *)
Definition persistNow (write : SetItem) (w : World) : World :=
  let (stored', es) := persist write (state w) (stored w) in
  {| state := run es (state w);
     stored := stored';
     console := console w ++ filter isConsoleError es |}.

(** Mounting the component. The two effects run after the first render,
    in the order they are written, the second one on the watchlist of
    that render, which is empty; when the first effect has called
    [setWatchlist] the component renders again and the second effect
    runs again, on the hydrated watchlist. [None] when the parsed value
    is no [Stock[]]. *)
Definition start (getThrows : bool) (write1 write2 : SetItem)
    (stored0 : option jsstring) : option World :=
  match hydrate (if getThrows then GetThrows else GetReturns stored0) with
  | Untyped _ => None
  | Typed es =>
      let w1 :=
        persistNow write1
          {| state := initial; stored := stored0;
             console := filter isConsoleError es |} in
      if existsb isSetWatchlist es then
        Some (persistNow write2
                {| state := run es initial; stored := stored w1;
                   console := console w1 |})
      else Some w1
  end.

(** Whether a handler hands a new array to [setWatchlist]: the add
    updater returns [prev] itself when the ticker is present, and
    [filter] always makes a new array. Only a new array makes the
    component render again and the second effect run. *)
Definition newWatchlist (a : Action) (st : State) : bool :=
  match a with
  | AddToWatchlist stock => negb (hasTicker (ticker stock) (watchlist st))
  | RemoveFromWatchlist _ => true
  | _ => false
  end.

(** A handler call, followed by the second effect when the watchlist is
    a new array. *)
Definition act (write : SetItem) (a : Action) (w : World) : World :=
  let w' := {| state := run (effects a) (state w);
               stored := stored w;
               console := console w |} in
  if newWatchlist a (state w) then persistNow write w' else w'.

(** Handler calls in a row, each with what [setItem] does when it is
    called. *)
Fixpoint acts (steps : list (SetItem * Action)) (w : World) : World :=
  match steps with
  | [] => w
  | (write, a) :: steps' => acts steps' (act write a w)
  end.

(** The storage holds the watchlist of the state. *)
Definition synced (w : World) : Prop :=
  stored w = Some (JSON.stringify (watchlist (state w))).

End Session.

(** * Properties *)

(** ** Strings *)

Lemma str_eqb_eq (a b : jsstring) : str_eqb a b = true <-> a = b.
Proof.
  revert b; induction a as [|x a IH]; intros [|y b]; simpl;
    try (split; [discriminate | discriminate]); try tauto.
  rewrite andb_true_iff, N.eqb_eq, IH.
  split; [intros [-> ->]; reflexivity | intros E; inversion E; auto].
Qed.

Lemma str_eqb_refl (a : jsstring) : str_eqb a a = true.
Proof. apply str_eqb_eq; reflexivity. Qed.

Lemma str_eqb_neq (a b : jsstring) : str_eqb a b = false <-> a <> b.
Proof.
  rewrite <- str_eqb_eq. destruct (str_eqb a b); split; congruence.
Qed.

Lemma trimStart_nil_iff (s : jsstring) : trimStart s = [] <-> isBlank s = true.
Proof.
  induction s as [|c s IH]; simpl.
  - tauto.
  - destruct (isWhiteSpace c); simpl; [exact IH | split; discriminate].
Qed.

Lemma isBlank_rev (s : jsstring) : isBlank (rev s) = isBlank s.
Proof.
  unfold isBlank. induction s as [|c s IH]; simpl; auto.
  rewrite forallb_app, IH. simpl. rewrite andb_true_r. apply andb_comm.
Qed.

Lemma trimStart_blank_inv (s : jsstring) :
  isBlank (trimStart s) = true -> isBlank s = true.
Proof.
  induction s as [|c s IH]; simpl; auto.
  destruct (isWhiteSpace c) eqn:E; simpl; auto.
  rewrite E. auto.
Qed.

(** [trim] leaves nothing exactly of the blank strings. *)
Lemma trim_nil_iff (s : jsstring) : trim s = [] <-> isBlank s = true.
Proof.
  unfold trim, trimEnd. split.
  - intros H. apply (f_equal (@rev _)) in H. rewrite rev_involutive in H.
    simpl in H. apply trimStart_nil_iff in H. rewrite isBlank_rev in H.
    apply trimStart_blank_inv, H.
  - intros H. apply trimStart_nil_iff in H. rewrite H. reflexivity.
Qed.

Lemma truthy_trim (s : jsstring) : truthy (trim s) = negb (isBlank s).
Proof.
  destruct (isBlank s) eqn:B.
  - apply trim_nil_iff in B. rewrite B. reflexivity.
  - destruct (trim s) eqn:E; [|reflexivity].
    apply trim_nil_iff in E. congruence.
Qed.

Example trim_inner_space : trim (lit "  a b  ") = lit "a b".
Proof. reflexivity. Qed.

Example trim_unicode_space : trim [0xFEFF; 0x2003; 65; 0x200B; 0xA0] = [65; 0x200B].
Proof. reflexivity. Qed.

(** ** The watchlist updaters *)

Lemma hasTicker_true_iff (t : jsstring) (W : list Stock) :
  hasTicker t W = true <-> In t (map ticker W).
Proof.
  unfold hasTicker. rewrite existsb_exists, in_map_iff.
  split; intros [s [H1 H2]]; exists s.
  - apply str_eqb_eq in H2. auto.
  - rewrite H1, str_eqb_refl. auto.
Qed.

Lemma hasTicker_false_iff (t : jsstring) (W : list Stock) :
  hasTicker t W = false <-> ~ In t (map ticker W).
Proof.
  rewrite <- hasTicker_true_iff. destruct (hasTicker t W); split; congruence.
Qed.

Lemma hasTicker_app (t : jsstring) (W1 W2 : list Stock) :
  hasTicker t (W1 ++ W2) = hasTicker t W1 || hasTicker t W2.
Proof. apply existsb_app. Qed.

Lemma hasTicker_addUpdater (stock : Stock) (W : list Stock) :
  hasTicker (ticker stock) (addUpdater stock W) = true.
Proof.
  unfold addUpdater. destruct (hasTicker (ticker stock) W) eqn:E; auto.
  rewrite hasTicker_app. simpl. rewrite str_eqb_refl.
  rewrite orb_true_r. reflexivity.
Qed.

Lemma addUpdater_idem (s1 s2 : Stock) (W : list Stock) :
  ticker s2 = ticker s1 -> addUpdater s2 (addUpdater s1 W) = addUpdater s1 W.
Proof.
  intros E. unfold addUpdater at 1. rewrite E, hasTicker_addUpdater.
  reflexivity.
Qed.

Lemma hasTicker_removeUpdater (t : jsstring) (W : list Stock) :
  hasTicker t (removeUpdater t W) = false.
Proof.
  apply hasTicker_false_iff. rewrite in_map_iff. intros [s [E H]].
  apply filter_In in H. destruct H as [_ H]. subst t.
  rewrite str_eqb_refl in H. discriminate.
Qed.

Lemma removeUpdater_absent (t : jsstring) (W : list Stock) :
  hasTicker t W = false -> removeUpdater t W = W.
Proof.
  unfold hasTicker, removeUpdater. induction W as [|s W IH]; simpl; auto.
  intros H. apply orb_false_iff in H. destruct H as [H1 H2].
  rewrite H1. simpl. rewrite IH; auto.
Qed.

Lemma removeUpdater_app (t : jsstring) (W1 W2 : list Stock) :
  removeUpdater t (W1 ++ W2) = removeUpdater t W1 ++ removeUpdater t W2.
Proof. apply filter_app. Qed.

Lemma removeUpdater_In (t : jsstring) (W : list Stock) (s : Stock) :
  In s (removeUpdater t W) <-> In s W /\ ticker s <> t.
Proof.
  unfold removeUpdater. rewrite filter_In, negb_true_iff, str_eqb_neq.
  reflexivity.
Qed.

Lemma countTicker_app (t : jsstring) (W1 W2 : list Stock) :
  countTicker t (W1 ++ W2) = (countTicker t W1 + countTicker t W2)%nat.
Proof. unfold countTicker. rewrite filter_app, length_app. reflexivity. Qed.

Lemma countTicker_zero_iff (t : jsstring) (W : list Stock) :
  countTicker t W = 0%nat <-> hasTicker t W = false.
Proof.
  unfold countTicker, hasTicker. induction W as [|s W IH]; simpl.
  - tauto.
  - destruct (str_eqb (ticker s) t); simpl; [split; discriminate | exact IH].
Qed.

Lemma countTicker_addUpdater (stock : Stock) (W : list Stock) :
  countTicker (ticker stock) (addUpdater stock W)
  = Nat.max 1 (countTicker (ticker stock) W).
Proof.
  unfold addUpdater. destruct (hasTicker (ticker stock) W) eqn:E.
  - destruct (countTicker (ticker stock) W) eqn:C.
    + apply countTicker_zero_iff in C. congruence.
    + reflexivity.
  - rewrite countTicker_app. apply countTicker_zero_iff in E. rewrite E.
    unfold countTicker. simpl. rewrite str_eqb_refl. reflexivity.
Qed.

Lemma NoDup_snoc {A : Type} (x : A) (l : list A) :
  NoDup l -> ~ In x l -> NoDup (l ++ [x]).
Proof.
  induction l as [|a l IH]; simpl; intros Hnd Hnotin.
  - constructor; [intros [] | constructor].
  - inversion Hnd as [|y ys Ha Hl]; subst. constructor.
    + rewrite in_app_iff. simpl. intros [H | [H | []]]; [auto | subst; auto].
    + apply IH; auto.
Qed.

Lemma addUpdater_unique (stock : Stock) (W : list Stock) :
  uniqueTickers W -> uniqueTickers (addUpdater stock W).
Proof.
  unfold uniqueTickers, addUpdater. intros H.
  destruct (hasTicker (ticker stock) W) eqn:E; auto.
  rewrite map_app. simpl. apply NoDup_snoc; auto.
  apply hasTicker_false_iff, E.
Qed.

Lemma removeUpdater_unique (t : jsstring) (W : list Stock) :
  uniqueTickers W -> uniqueTickers (removeUpdater t W).
Proof.
  unfold uniqueTickers. induction W as [|s W IH]; intros Hu; [exact Hu |].
  inversion Hu as [|x xs Hfresh Hrest]; subst.
  change (removeUpdater t (s :: W))
    with (if negb (str_eqb (ticker s) t)
          then s :: removeUpdater t W else removeUpdater t W).
  destruct (negb (str_eqb (ticker s) t)); [| exact (IH Hrest)].
  cbn [map]. constructor; [| exact (IH Hrest)].
  intros Hin. apply Hfresh.
  apply in_map_iff in Hin. destruct Hin as [y [Ey Hy]].
  apply removeUpdater_In in Hy. apply in_map_iff. exists y. tauto.
Qed.

Lemma run_SetWatchlist (f : list Stock -> list Stock) (st : State) :
  watchlist (run [SetWatchlist f] st) = f (watchlist st).
Proof. reflexivity. Qed.

(** An effect other than [setWatchlist] leaves the watchlist alone. *)
Lemma apply_watchlist (e : Effect) (st : State) :
  watchlist (apply e st)
  = match e with
    | SetWatchlist f => f (watchlist st)
    | _ => watchlist st
    end.
Proof. destruct e; reflexivity. Qed.

(** ** Submitting a query *)

Section SubmitFacts.

Variable fetchPromisingStocks : jsstring -> Settled.

Lemma handleSubmit_blank (q : jsstring) :
  isBlank q = true ->
  handleSubmit fetchPromisingStocks q = [SetError (Some validationMessage)].
Proof.
  intros B. unfold handleSubmit. rewrite truthy_trim, B. reflexivity.
Qed.

Lemma handleSubmit_not_blank (q : jsstring) :
  isBlank q = false ->
  handleSubmit fetchPromisingStocks q
  = [SetView ViewSearch; SetLoading true; SetError None;
     SetStocks []; SetSources []]
    ++ Fetch q
    :: match fetchPromisingStocks q with
       | Fulfilled result =>
           [SetStocks (Types.stocks result); SetSources (Types.sources result)]
       | Rejected (ErrorObject message) =>
           [SetError (Some (failureMessage message))]
       | Rejected NotAnError => [SetError (Some unknownMessage)]
       end
    ++ [SetLoading false].
Proof.
  intros B. unfold handleSubmit. rewrite truthy_trim, B. reflexivity.
Qed.

End SubmitFacts.

(** ** JSON: what is written is read back *)

Module JSONFacts.
Import JSON.

Lemma hexValue_hexDigit (d : N) : d < 16 -> hexValue (hexDigit d) = Some d.
Proof.
  intros H. unfold hexValue, hexDigit.
  destruct (N.ltb_spec d 10) as [L | L].
  - replace ((48 <=? 48 + d) && (48 + d <=? 57)) with true.
    + f_equal. lia.
    + symmetry. apply andb_true_iff. split; apply N.leb_le; lia.
  - replace ((48 <=? 87 + d) && (87 + d <=? 57)) with false.
    + replace ((97 <=? 87 + d) && (87 + d <=? 102)) with true.
      * f_equal. lia.
      * symmetry. apply andb_true_iff. split; apply N.leb_le; lia.
    + symmetry. apply andb_false_iff. right. apply N.leb_gt. lia.
Qed.

Lemma hex_digits (c : N) :
  c < 0x10000 ->
  ((c / 4096 mod 16 * 16 + c / 256 mod 16) * 16 + c / 16 mod 16) * 16
  + c mod 16 = c.
Proof.
  intros H.
  pose proof (N.div_mod c 16) as E0.
  pose proof (N.div_mod (c / 16) 16) as E1.
  pose proof (N.div_mod (c / 256) 16) as E2.
  rewrite N.Div0.div_div in E1.
  rewrite N.Div0.div_div in E2.
  change (16 * 16) with 256 in E1. change (256 * 16) with 4096 in E2.
  assert (c / 4096 < 16) as B by (apply N.Div0.div_lt_upper_bound; exact H).
  rewrite (N.mod_small (c / 4096) 16 B).
  specialize (E0 ltac:(discriminate)).
  specialize (E1 ltac:(discriminate)).
  specialize (E2 ltac:(discriminate)).
  lia.
Qed.

Lemma quoteBody_cons (c : codeunit) (r : jsstring) :
  quoteBody (c :: r)
  = if isLeadingSurrogate c then
      match r with
      | d :: r' =>
          if isTrailingSurrogate d then c :: d :: quoteBody r'
          else UnicodeEscape c ++ quoteBody r
      | [] => UnicodeEscape c
      end
    else if isTrailingSurrogate c then UnicodeEscape c ++ quoteBody r
    else quoteUnit c ++ quoteBody r.
Proof. reflexivity. Qed.

Lemma parseChars_plain (c : codeunit) (r : jsstring) :
  c <> 34 -> c <> 92 -> 32 <= c ->
  parseChars (c :: r)
  = match parseChars r with
    | Some (t, rest) => Some (c :: t, rest)
    | None => None
    end.
Proof.
  intros H1 H2 H3. simpl.
  apply N.eqb_neq in H1. apply N.eqb_neq in H2. rewrite H1, H2.
  replace (c <? 32) with false by (symmetry; apply N.ltb_ge; exact H3).
  reflexivity.
Qed.

Lemma parseChars_UnicodeEscape (c : codeunit) (r : jsstring) :
  wf_codeunit c ->
  parseChars (UnicodeEscape c ++ r)
  = match parseChars r with
    | Some (t, rest) => Some (c :: t, rest)
    | None => None
    end.
Proof.
  intros H. unfold wf_codeunit in H. unfold UnicodeEscape.
  assert (forall x, x mod 16 < 16) as M
      by (intros x; apply N.mod_lt; discriminate).
  cbn [app parseChars]. cbn [N.eqb Pos.eqb].
  rewrite !hexValue_hexDigit by apply M.
  rewrite hex_digits by exact H. reflexivity.
Qed.

Lemma parseChars_quoteUnit (c : codeunit) (r : jsstring) :
  wf_codeunit c ->
  parseChars (quoteUnit c ++ r)
  = match parseChars r with
    | Some (t, rest) => Some (c :: t, rest)
    | None => None
    end.
Proof.
  intros H. unfold quoteUnit.
  repeat match goal with
  | |- context [if ?x =? ?k then _ else _] =>
      destruct (N.eqb_spec x k) as [-> | ?]; [reflexivity |]
  end.
  destruct (N.ltb_spec c 32) as [L | L].
  - apply parseChars_UnicodeEscape, H.
  - apply parseChars_plain; assumption.
Qed.

Lemma surrogate_plain (c : codeunit) :
  isLeadingSurrogate c = true \/ isTrailingSurrogate c = true ->
  c <> 34 /\ c <> 92 /\ 32 <= c.
Proof.
  unfold isLeadingSurrogate, isTrailingSurrogate.
  intros [H | H]; apply andb_true_iff in H; destruct H as [H _];
    apply N.leb_le in H; lia.
Qed.

Lemma parseChars_quoteBody_bounded (n : nat) :
  forall s rest,
    (List.length s <= n)%nat -> wf_string s ->
    parseChars (quoteBody s ++ 34 :: rest) = Some (s, rest).
Proof.
  induction n as [|n IH]; intros s rest Hlen Hwf.
  - destruct s; [reflexivity | simpl in Hlen; lia].
  - destruct s as [|c r]; [reflexivity |].
    inversion Hwf as [|? ? Hc Hr]; subst.
    assert (parseChars (quoteBody r ++ 34 :: rest) = Some (r, rest)) as IHr
        by (apply IH; [simpl in Hlen; lia | exact Hr]).
    rewrite quoteBody_cons.
    destruct (isLeadingSurrogate c) eqn:L.
    + destruct (surrogate_plain c (or_introl L)) as [P1 [P2 P3]].
      destruct r as [|d r'].
      * rewrite parseChars_UnicodeEscape by exact Hc. reflexivity.
      * destruct (isTrailingSurrogate d) eqn:T.
        -- destruct (surrogate_plain d (or_intror T)) as [Q1 [Q2 Q3]].
           inversion Hr as [|? ? Hd Hr']; subst.
           cbn [app].
           rewrite parseChars_plain by assumption.
           rewrite parseChars_plain by assumption.
           rewrite IH; [reflexivity | simpl in Hlen; lia | exact Hr'].
        -- rewrite <- app_assoc.
           rewrite parseChars_UnicodeEscape by exact Hc.
           rewrite IHr. reflexivity.
    + destruct (isTrailingSurrogate c) eqn:T.
      * rewrite <- app_assoc.
        rewrite parseChars_UnicodeEscape by exact Hc.
        rewrite IHr. reflexivity.
      * rewrite <- app_assoc.
        rewrite parseChars_quoteUnit by exact Hc.
        rewrite IHr. reflexivity.
Qed.

(** The characters [QuoteJSONString] writes between the quotes are
    read back as the string. *)
Lemma parseChars_quoteBody (s rest : jsstring) :
  wf_string s -> parseChars (quoteBody s ++ 34 :: rest) = Some (s, rest).
Proof. apply (parseChars_quoteBody_bounded (List.length s)). lia. Qed.

Lemma QuoteJSONString_app (s rest : jsstring) :
  QuoteJSONString s ++ rest = 34 :: quoteBody s ++ 34 :: rest.
Proof. unfold QuoteJSONString. simpl. rewrite <- app_assoc. reflexivity. Qed.

Lemma parseValue_string (fuel : nat) (s rest : jsstring) :
  wf_string s ->
  parseValue (S fuel) (QuoteJSONString s ++ rest) = Ok (JString s) rest.
Proof.
  intros H. rewrite QuoteJSONString_app.
  cbn [parseValue skipWS isJSONWhiteSpace N.eqb Pos.eqb orb].
  rewrite parseChars_quoteBody by exact H. reflexivity.
Qed.

Lemma parseMembers_last (fuel : nat) (key value rest : jsstring) :
  wf_string key -> wf_string value ->
  parseMembers (S (S fuel)) (serializeProperty key value ++ 125 :: rest)
  = Ok [(key, JString value)] rest.
Proof.
  intros Hk Hv. unfold serializeProperty.
  rewrite <- app_assoc, QuoteJSONString_app.
  cbn [parseMembers skipWS isJSONWhiteSpace N.eqb Pos.eqb orb].
  rewrite parseChars_quoteBody by exact Hk.
  cbn [app skipWS isJSONWhiteSpace N.eqb Pos.eqb orb].
  rewrite parseValue_string by exact Hv.
  reflexivity.
Qed.

Lemma parseMembers_more (fuel : nat) (key value more : jsstring) :
  wf_string key -> wf_string value ->
  parseMembers (S (S fuel)) (serializeProperty key value ++ 44 :: more)
  = match parseMembers (S fuel) more with
    | Ok ms rest => Ok ((key, JString value) :: ms) rest
    | Syntax => Syntax
    | Fuel => Fuel
    end.
Proof.
  intros Hk Hv. unfold serializeProperty.
  rewrite <- app_assoc, QuoteJSONString_app.
  cbn [parseMembers skipWS isJSONWhiteSpace N.eqb Pos.eqb orb].
  rewrite parseChars_quoteBody by exact Hk.
  cbn [app skipWS isJSONWhiteSpace N.eqb Pos.eqb orb].
  rewrite parseValue_string by exact Hv.
  reflexivity.
Qed.

Lemma wf_lit (w : string) : wf_string (lit w).
Proof.
  unfold wf_string, lit. apply Forall_forall. intros c H.
  apply in_map_iff in H. destruct H as [a [<- _]].
  unfold wf_codeunit. pose proof (N_ascii_bounded a). lia.
Qed.

Lemma parseValue_serializeStock (fuel : nat) (s : Stock) (rest : jsstring) :
  wf_stock s ->
  parseValue (6 + fuel) (serializeStock s ++ rest) = Ok (stockValue s) rest.
Proof.
  intros (Ht & Hc & Hg & Hp). unfold serializeStock.
  change (6 + fuel)%nat with (S (S (S (S (S (S fuel)))))).
  cbn [app].
  repeat (rewrite <- app_assoc; cbn [app]).
  set (m := serializeProperty (lit "ticker") (ticker s) ++ _).
  assert (exists tl, m = 34 :: tl) as [tl Hm] by (eexists; reflexivity).
  cbn [parseValue skipWS isJSONWhiteSpace N.eqb Pos.eqb orb].
  rewrite Hm. cbn [skipWS isJSONWhiteSpace N.eqb Pos.eqb orb].
  rewrite <- Hm. subst m.
  rewrite parseMembers_more by (apply wf_lit || assumption).
  rewrite parseMembers_more by (apply wf_lit || assumption).
  rewrite parseMembers_more by (apply wf_lit || assumption).
  rewrite parseMembers_last by (apply wf_lit || assumption).
  reflexivity.
Qed.

Lemma joinComma_cons (x : jsstring) (l : list jsstring) (rest : jsstring) :
  joinComma (x :: l) ++ 93 :: rest
  = x ++ match l with
         | [] => 93 :: rest
         | _ :: _ => 44 :: joinComma l ++ 93 :: rest
         end.
Proof.
  destruct l; [reflexivity |].
  cbn [joinComma]. rewrite <- app_assoc. reflexivity.
Qed.

Lemma parseElements_stocks (W : list Stock) :
  forall (s : Stock) (fuel : nat) (rest : jsstring),
    Forall wf_stock (s :: W) ->
    parseElements (7 + List.length W + fuel)
      (joinComma (map serializeStock (s :: W)) ++ 93 :: rest)
    = Ok (map stockValue (s :: W)) rest.
Proof.
  induction W as [|s' W IH]; intros s fuel rest Hwf;
    inversion Hwf as [|? ? Hs HW]; subst.
  - cbn [map]. rewrite joinComma_cons.
    change (7 + List.length (@nil Stock) + fuel)%nat with (S (6 + fuel)).
    cbn [parseElements].
    rewrite parseValue_serializeStock by exact Hs.
    reflexivity.
  - cbn [map]. rewrite joinComma_cons.
    change (7 + List.length (s' :: W) + fuel)%nat
      with (S (6 + (S (List.length W + fuel)))).
    cbn [parseElements].
    rewrite parseValue_serializeStock by exact Hs.
    cbn [skipWS isJSONWhiteSpace N.eqb Pos.eqb orb].
    replace (6 + S (List.length W + fuel))%nat
      with (7 + List.length W + fuel)%nat by lia.
    change (serializeStock s' :: map serializeStock W)
      with (map serializeStock (s' :: W)).
    rewrite IH by exact HW. reflexivity.
Qed.

Lemma serializeStock_head (s : Stock) :
  exists tl, serializeStock s = 123 :: tl.
Proof. eexists. reflexivity. Qed.

Lemma serializeStock_length (s : Stock) :
  (4 <= List.length (serializeStock s))%nat.
Proof.
  assert (exists tl, serializeStock s = 123 :: 34 :: 116 :: 105 :: tl)
    as [tl E] by (eexists; reflexivity).
  rewrite E. cbn [List.length]. lia.
Qed.

Lemma joinComma_stocks_length (W : list Stock) :
  (4 * List.length W <= List.length (joinComma (map serializeStock W)))%nat.
Proof.
  induction W as [|s W IH]; [apply le_n |].
  pose proof (serializeStock_length s) as L.
  cbn [map joinComma].
  destruct (map serializeStock W) eqn:M.
  - destruct W; [cbn [List.length]; lia | discriminate].
  - rewrite length_app. cbn [List.length] in *. lia.
Qed.

Lemma parseValue_array (fuel : nat) (r : jsstring) :
  parseValue (S fuel) (91 :: 123 :: r)
  = match parseElements fuel (123 :: r) with
    | Ok vs rest => Ok (JArray vs) rest
    | Syntax => Syntax
    | Fuel => Fuel
    end.
Proof. reflexivity. Qed.

Lemma parseValue_stringify (W : list Stock) (fuel : nat) :
  Forall wf_stock W ->
  parseValue (8 + List.length W + fuel) (stringify W)
  = Ok (JArray (map stockValue W)) [].
Proof.
  intros Hwf. unfold stringify. destruct W as [|s W].
  - reflexivity.
  - replace (8 + List.length (s :: W) + fuel)%nat
      with (S (7 + List.length W + S fuel)) by (cbn [List.length]; lia).
    replace (joinComma (map serializeStock (s :: W)) ++ [93])
      with (joinComma (map serializeStock (s :: W)) ++ 93 :: [])
      by reflexivity.
    pose proof (parseElements_stocks W s (S fuel) [] Hwf) as P.
    cbn [map] in P |- *. rewrite joinComma_cons in P |- *.
    destruct (serializeStock_head s) as [tl E]. rewrite E in *.
    cbn [app] in *.
    rewrite parseValue_array, P. reflexivity.
Qed.

Lemma asStock_stockValue (s : Stock) : asStock (stockValue s) = Some s.
Proof. destruct s. reflexivity. Qed.

Lemma asStocks_stockValue (W : list Stock) :
  asStocks (map stockValue W) = Some W.
Proof.
  induction W as [|s W IH]; [reflexivity |].
  cbn [map asStocks]. rewrite asStock_stockValue, IH. reflexivity.
Qed.

(** [JSON.parse(JSON.stringify(W))] is [W] again. *)
Lemma parse_stringify (W : list Stock) :
  Forall wf_stock W ->
  parse (stringify W) = Some (JArray (map stockValue W)).
Proof.
  intros Hwf. destruct W as [|s W]; [reflexivity |].
  unfold parse, fuelFor.
  assert (exists fuel, S (2 * List.length (stringify (s :: W)))
                       = 8 + List.length (s :: W) + fuel)%nat as [fuel E].
  { pose proof (joinComma_stocks_length (s :: W)) as L.
    unfold stringify. cbn [List.length] in *. rewrite length_app.
    cbn [List.length] in *.
    exists (S (2 * (S (List.length (joinComma (map serializeStock (s :: W))) + 1)))
            - (8 + S (List.length W)))%nat.
    lia. }
  rewrite E, parseValue_stringify by exact Hwf. reflexivity.
Qed.

Lemma asWatchlist_parse_stringify (W : list Stock) :
  Forall wf_stock W ->
  option_map asWatchlist (parse (stringify W)) = Some (Some W).
Proof.
  intros Hwf. rewrite parse_stringify by exact Hwf.
  cbn [option_map asWatchlist]. rewrite asStocks_stockValue. reflexivity.
Qed.

Lemma stringify_truthy (W : list Stock) : truthy (stringify W) = true.
Proof. reflexivity. Qed.
End JSONFacts.

Example quote_odd_name :
  JSON.QuoteJSONString (companyName Sample.odd)
  = [34; 92; 34; 92; 92; 92; 116; 92; 117; 48; 48; 48; 49;
     0xD83D; 0xDE00; 92; 117; 100; 99; 48; 48; 0x3BB; 34].
Proof. reflexivity. Qed.

Example parse_any_value :
  JSON.parse (lit " [1, -0.5e+3, true,false , null, {}, [ ], [[]]  ] ")
  = Some (JSON.JArray
            [JSON.JNumber (lit "1"); JSON.JNumber (lit "-0.5e+3");
             JSON.JBool true; JSON.JBool false; JSON.JNull;
             JSON.JObject []; JSON.JArray [];
             JSON.JArray [JSON.JArray []]]).
Proof. vm_compute. reflexivity. Qed.

Example parse_later_member_stays :
  match JSON.parse [123; 34; 97; 34; 58; 49; 44; 34; 97; 34; 58; 50; 125] with
  | Some (JSON.JObject members) => JSON.getProperty (lit "a") members
  | _ => None
  end
  = Some (JSON.JNumber (lit "2")).
Proof. vm_compute. reflexivity. Qed.

Example parse_rejects :
  JSON.parse (lit "[1,]") = None /\ JSON.parse (lit "01") = None
  /\ JSON.parse (lit "nul") = None /\ JSON.parse (lit "[1 2]") = None
  /\ JSON.parse (lit "{a:1}") = None /\ JSON.parse (lit "1.") = None
  /\ JSON.parse [34; 9; 34] = None /\ JSON.parse [34; 92; 120; 34] = None
  /\ JSON.parse (lit "  ") = None.
Proof. vm_compute. repeat split. Qed.

(** ** JSON: the fuel of [parse] is never used up *)

Module FuelFacts.
Import JSON.

Lemma skipWS_length (s : jsstring) :
  (List.length (skipWS s) <= List.length s)%nat.
Proof.
  induction s as [|c s IH]; simpl; auto.
  destruct (isJSONWhiteSpace c); simpl; lia.
Qed.

Lemma skipWS_cons_length (s r : jsstring) (c : N) :
  skipWS s = c :: r -> (List.length r < List.length s)%nat.
Proof.
  intros H. pose proof (skipWS_length s) as L. rewrite H in L.
  simpl in L. lia.
Qed.

Lemma parseChars_length_bounded (n : nat) :
  forall s t rest,
    (List.length s <= n)%nat ->
    parseChars s = Some (t, rest) ->
    (List.length rest < List.length s)%nat.
Proof.
  induction n as [|n IH]; intros s t rest Hlen H;
    (destruct s as [|c r]; [discriminate |]).
  - simpl in Hlen. lia.
  - simpl in H, Hlen.
    repeat match type of H with
    | context [match ?x with _ => _ end] =>
        let E := fresh "E" in destruct x eqn:E; try discriminate
    end;
    repeat match goal with
    | p : (_ * _)%type |- _ => destruct p
    end;
    inversion H; subst; simpl;
    try match goal with
    | E : parseChars ?x = Some _ |- _ =>
        apply IH in E; simpl in *; lia
    end; lia.
Qed.

Lemma parseChars_length (s t rest : jsstring) :
  parseChars s = Some (t, rest) -> (List.length rest < List.length s)%nat.
Proof. apply (parseChars_length_bounded (List.length s)). apply le_n. Qed.

Ltac break_hyp H :=
  repeat match type of H with
  | context [match ?x with _ => _ end] =>
      let E := fresh "E" in destruct x eqn:E; try discriminate
  | context [let (_, _) := ?x in _] =>
      let E := fresh "E" in destruct x eqn:E
  end.

Lemma spanDigits_length (s : jsstring) :
  forall d rest,
    spanDigits s = (d, rest) -> (List.length rest <= List.length s)%nat.
Proof.
  induction s as [|c s IH]; simpl; intros d rest H.
  - inversion H. auto.
  - destruct (isDigit c).
    + destruct (spanDigits s) as [d' rest'] eqn:E. inversion H; subst.
      specialize (IH _ _ eq_refl). lia.
    + inversion H; subst. simpl. lia.
Qed.

Lemma parseDigits1_length (s d rest : jsstring) :
  parseDigits1 s = Some (d, rest) ->
  (List.length rest <= List.length s)%nat.
Proof.
  unfold parseDigits1. intros H.
  destruct (spanDigits s) as [d' rest'] eqn:E.
  apply spanDigits_length in E. destruct d'; inversion H; subst. exact E.
Qed.

Lemma parseInt_length (s i rest : jsstring) :
  parseInt s = Some (i, rest) -> (List.length rest < List.length s)%nat.
Proof.
  unfold parseInt. intros H. destruct s as [|c r]; [discriminate |].
  destruct (c =? 48); [inversion H; subst; simpl; lia |].
  destruct (isDigit c); [| discriminate].
  destruct (spanDigits r) as [d rest'] eqn:E. inversion H; subst.
  apply spanDigits_length in E. simpl. lia.
Qed.

Lemma parseFrac_length (s f rest : jsstring) :
  parseFrac s = Some (f, rest) -> (List.length rest <= List.length s)%nat.
Proof.
  unfold parseFrac. intros H. destruct s as [|c r].
  - inversion H. auto.
  - destruct (c =? 46).
    + destruct (parseDigits1 r) as [[d rest'] |] eqn:E; [| discriminate].
      inversion H; subst. apply parseDigits1_length in E. simpl. lia.
    + inversion H; subst. auto.
Qed.

Lemma parseSign_length (s sg rest : jsstring) :
  parseSign s = (sg, rest) -> (List.length rest <= List.length s)%nat.
Proof.
  unfold parseSign. intros H. destruct s as [|c r].
  - inversion H. auto.
  - destruct ((c =? 43) || (c =? 45)); inversion H; subst; simpl; lia.
Qed.

Lemma parseExp_length (s e rest : jsstring) :
  parseExp s = Some (e, rest) -> (List.length rest <= List.length s)%nat.
Proof.
  unfold parseExp. intros H. destruct s as [|c r].
  - inversion H. auto.
  - destruct ((c =? 101) || (c =? 69)).
    + destruct (parseSign r) as [sg r'] eqn:S.
      destruct (parseDigits1 r') as [[d rest'] |] eqn:E; [| discriminate].
      inversion H; subst. apply parseDigits1_length in E.
      apply parseSign_length in S. simpl. lia.
    + inversion H; subst. auto.
Qed.

Lemma parseNumber_length (s lexeme rest : jsstring) :
  parseNumber s = Some (lexeme, rest) ->
  (List.length rest < List.length s)%nat.
Proof.
  unfold parseNumber. intros H.
  destruct (match s with
            | [] => ([], s)
            | c :: r => if c =? 45 then ([c], r) else ([], s)
            end) as [minus s0] eqn:M.
  assert (List.length s0 <= List.length s)%nat as L0.
  { destruct s as [|c r]; [inversion M; auto |].
    destruct (c =? 45); inversion M; subst; simpl; lia. }
  destruct (parseInt s0) as [[i s1] |] eqn:I; [| discriminate].
  destruct (parseFrac s1) as [[f s2] |] eqn:F; [| discriminate].
  destruct (parseExp s2) as [[e s3] |] eqn:X; [| discriminate].
  inversion H; subst.
  apply parseInt_length in I. apply parseFrac_length in F.
  apply parseExp_length in X. lia.
Qed.

Lemma keyword_length (word : string) (v w : json) (s rest : jsstring) :
  lit word <> [] ->
  keyword word v s = Ok w rest -> (List.length rest < List.length s)%nat.
Proof.
  unfold keyword. intros Hne H.
  destruct (stripPrefix (lit word) s) as [rest' |] eqn:E; [| discriminate].
  inversion H; subst. clear H.
  assert (forall p x r, stripPrefix p x = Some r ->
                        (List.length r + List.length p = List.length x)%nat) as P.
  { induction p as [|a p IH]; intros x r Hp; simpl in Hp.
    - inversion Hp. simpl. lia.
    - destruct x as [|b x]; [discriminate |].
      destruct (a =? b); [| discriminate].
      apply IH in Hp. simpl. lia. }
  apply P in E. destruct (lit word); [congruence | simpl in E; lia].
Qed.

Ltac lengths IHV IHE IHM :=
  repeat match goal with
  | H : skipWS _ = _ :: _ |- _ => apply skipWS_cons_length in H
  | H : parseChars _ = Some _ |- _ => apply parseChars_length in H
  | H : parseNumber _ = Some _ |- _ => apply parseNumber_length in H
  | H : keyword _ _ _ = Ok _ _ |- _ =>
      apply keyword_length in H; [| discriminate]
  | H : parseValue _ _ = Ok _ _ |- _ => apply IHV in H
  | H : parseElements _ _ = Ok _ _ |- _ => apply IHE in H
  | H : parseMembers _ _ = Ok _ _ |- _ => apply IHM in H
  end.

(** A parser that succeeds has consumed some of its input. *)
Lemma parse_shrinks (fuel : nat) :
  (forall s v rest,
      parseValue fuel s = Ok v rest ->
      (List.length rest < List.length s)%nat)
  /\ (forall s vs rest,
        parseElements fuel s = Ok vs rest ->
        (List.length rest < List.length s)%nat)
  /\ (forall s ms rest,
        parseMembers fuel s = Ok ms rest ->
        (List.length rest < List.length s)%nat).
Proof.
  induction fuel as [|fuel (IHV & IHE & IHM)].
  - repeat split; intros; discriminate.
  - repeat split; intros s v rest H.
    + cbn [parseValue] in H. break_hyp H;
        try (inversion H; subst; clear H);
        lengths IHV IHE IHM; cbn [List.length] in *; lia.
    + cbn [parseElements] in H. break_hyp H;
        try (inversion H; subst; clear H);
        lengths IHV IHE IHM; cbn [List.length] in *; lia.
    + cbn [parseMembers] in H. break_hyp H;
        try (inversion H; subst; clear H);
        lengths IHV IHE IHM; cbn [List.length] in *; lia.
Qed.

(** With more than twice the length of the input as fuel, no parser
    stops for lack of fuel. *)
Lemma fuel_enough (fuel : nat) :
  (forall s, (2 * List.length s < fuel)%nat -> parseValue fuel s <> Fuel)
  /\ (forall s,
        (2 * List.length s + 1 < fuel)%nat -> parseElements fuel s <> Fuel)
  /\ (forall s, (2 * List.length s < fuel)%nat -> parseMembers fuel s <> Fuel).
Proof.
  induction fuel as [|fuel (IHV & IHE & IHM)].
  - repeat split; intros; lia.
  - destruct (parse_shrinks fuel) as (SV & SE & SM).
    repeat split; intros s Hlt H.
    + cbn [parseValue] in H. unfold keyword in H. break_hyp H;
        match goal with
        | E : parseElements fuel ?x = Fuel |- _ => apply IHE in E; [exact E |]
        | E : parseMembers fuel ?x = Fuel |- _ => apply IHM in E; [exact E |]
        end;
        lengths SV SE SM; cbn [List.length] in *; lia.
    + cbn [parseElements] in H. break_hyp H;
        match goal with
        | E : parseElements fuel ?x = Fuel |- _ => apply IHE in E; [exact E |]
        | E : parseValue fuel ?x = Fuel |- _ => apply IHV in E; [exact E |]
        end;
        lengths SV SE SM; cbn [List.length] in *; lia.
    + cbn [parseMembers] in H. break_hyp H;
        match goal with
        | E : parseMembers fuel ?x = Fuel |- _ => apply IHM in E; [exact E |]
        | E : parseValue fuel ?x = Fuel |- _ => apply IHV in E; [exact E |]
        end;
        lengths SV SE SM; cbn [List.length] in *; lia.
Qed.

(** [parse] fails on a syntax error only: it has fuel for every text. *)
Lemma parse_fuel (text : jsstring) : parseValue (fuelFor text) text <> Fuel.
Proof. apply fuel_enough. unfold fuelFor. lia. Qed.
End FuelFacts.

(** ** The claims about the watchlist *)

Lemma effects_keep_unique (a : Action) (e : Effect) (st : State) :
  In e (effects a) ->
  uniqueTickers (watchlist st) -> uniqueTickers (watchlist (apply e st)).
Proof.
  intros Hin Hu. rewrite apply_watchlist.
  destruct a as [stock | t | q settled | q settled | q | v];
    cbn [effects handleAddToWatchlist handleRemoveFromWatchlist
         handleExampleClick] in Hin.
  - destruct Hin as [<- | []]. apply addUpdater_unique, Hu.
  - destruct Hin as [<- | []]. apply removeUpdater_unique, Hu.
  - unfold handleSubmit in Hin.
    destruct (negb (truthy (trim q))); destruct settled as [r | [m |]];
      simpl in Hin; intuition (subst; exact Hu).
  - destruct Hin as [<- | Hin]; [exact Hu |].
    unfold handleSubmit in Hin.
    destruct (negb (truthy (trim q))); destruct settled as [r | [m |]];
      simpl in Hin; intuition (subst; exact Hu).
  - destruct Hin as [<- | []]. exact Hu.
  - destruct Hin as [<- | []]. exact Hu.
Qed.

Lemma hydrate_stringify (W : list Stock) :
  Forall wf_stock W ->
  hydrate (GetReturns (Some (JSON.stringify W)))
  = Typed [SetWatchlist (fun _ => W)].
Proof.
  intros Hwf. unfold hydrate, hydrateTry.
  rewrite JSONFacts.stringify_truthy, (JSONFacts.parse_stringify W Hwf).
  cbn [JSON.asWatchlist]. rewrite JSONFacts.asStocks_stockValue.
  reflexivity.
Qed.

(** C1, as stated, fails: a stored list with the ticker NVDA twice is
    hydrated as it is. *)
Lemma hydrate_keeps_duplicates :
  reachable (GetReturns (Some Sample.duplicateStorage))
            (Sample.withWatchlist [Sample.nvda; Sample.nvda'])
  /\ ~ uniqueTickers (watchlist (Sample.withWatchlist [Sample.nvda; Sample.nvda'])).
Proof.
  split.
  - apply reach_hydrated. vm_compute. reflexivity.
  - intros H. inversion H as [|x l Hnotin _]; subst.
    apply Hnotin. left. reflexivity.
Qed.

(** C1 (amended): when the first effect hands over a list without a
    repeated ticker, or nothing, no reachable state holds a ticker twice:
    add and remove keep the tickers distinct. This is the case when
    reading the storage throws, when the key is absent, when the stored
    text does not parse, and when the stored text was written from a
    watchlist without a repeated ticker. *)
Theorem watchlist_unique_when_hydrated_unique :
  (forall (read : GetItem) (st : State),
      hydratesUnique read -> reachable read st ->
      uniqueTickers (watchlist st))
  /\ hydratesUnique GetThrows
  /\ hydratesUnique (GetReturns None)
  /\ (forall text, JSON.parse text = None ->
                   hydratesUnique (GetReturns (Some text)))
  /\ (forall W, Forall wf_stock W -> uniqueTickers W ->
                hydratesUnique (GetReturns (Some (JSON.stringify W)))).
Proof.
  repeat split.
  - intros read st Hh Hr. induction Hr as [| es E | st a e Hr IH Hin].
    + constructor.
    + unfold hydratesUnique in Hh. rewrite E in Hh. exact Hh.
    + apply (effects_keep_unique a); assumption.
  - constructor.
  - constructor.
  - intros text Hp. unfold hydratesUnique, hydrate, hydrateTry.
    destruct (truthy text); [rewrite Hp |]; constructor.
  - intros W Hwf Hu. unfold hydratesUnique.
    rewrite hydrate_stringify by exact Hwf. exact Hu.
Qed.

Lemma watchlist_unique_when_hydrated_unique_witness :
  uniqueTickers
    (watchlist (apply (SetWatchlist (addUpdater Sample.nvda'))
                  (Sample.withWatchlist [Sample.nvda; Sample.msft]))).
Proof.
  apply (proj1 watchlist_unique_when_hydrated_unique
           (GetReturns (Some (JSON.stringify [Sample.nvda; Sample.msft])))).
  - vm_compute. repeat constructor; simpl; intuition discriminate.
  - apply (reach_step _ _ (AddToWatchlist Sample.nvda')).
    + apply reach_hydrated. vm_compute. reflexivity.
    + left. reflexivity.
Defined.

(** C2, as stated, fails: after two adds a watchlist that already held
    the ticker twice still holds it twice. *)
Lemma add_twice_on_duplicates :
  reachable (GetReturns (Some Sample.duplicateStorage))
            (Sample.withWatchlist [Sample.nvda; Sample.nvda'])
  /\ countTicker (lit "NVDA")
       (watchlist
          (run (handleAddToWatchlist Sample.nvda')
             (run (handleAddToWatchlist Sample.nvda)
                (Sample.withWatchlist [Sample.nvda; Sample.nvda']))))
     = 2%nat.
Proof.
  split.
  - apply reach_hydrated. vm_compute. reflexivity.
  - vm_compute. reflexivity.
Qed.

(** C2 (amended): after add of a stock with ticker [t] and add of any
    stock with ticker [t], the second add changed nothing, and the
    watchlist holds as many entries with ticker [t] as before, one at
    least; so exactly one when it held at most one before, as every
    watchlist without a repeated ticker does. *)
Theorem add_twice_same_ticker :
  forall (t : jsstring) (st : State) (s1 s2 : Stock),
    ticker s1 = t -> ticker s2 = t ->
    let once := run (handleAddToWatchlist s1) st in
    let twice := run (handleAddToWatchlist s2) once in
    twice = once
    /\ countTicker t (watchlist twice) = Nat.max 1 (countTicker t (watchlist st))
    /\ ((countTicker t (watchlist st) <= 1)%nat ->
        countTicker t (watchlist twice) = 1%nat)
    /\ (uniqueTickers (watchlist st) -> countTicker t (watchlist twice) = 1%nat).
Proof.
  intros t st s1 s2 E1 E2 once twice.
  assert (twice = once) as Hsame.
  { unfold twice, once. cbn [run handleAddToWatchlist apply watchlist].
    rewrite addUpdater_idem by congruence. reflexivity. }
  assert (countTicker t (watchlist twice)
          = Nat.max 1 (countTicker t (watchlist st))) as Hcount.
  { rewrite Hsame. unfold once. cbn [run handleAddToWatchlist apply watchlist].
    subst t. apply countTicker_addUpdater. }
  repeat split; auto.
  - intros Hle. rewrite Hcount. lia.
  - intros Hu. rewrite Hcount.
    assert (countTicker t (watchlist st) <= 1)%nat; [| lia].
    clear - Hu. unfold uniqueTickers, countTicker in *.
    induction (watchlist st) as [|s W IH]; simpl in *; [lia |].
    inversion Hu as [|x l Hnotin Hnd]; subst.
    destruct (str_eqb (ticker s) t) eqn:E; simpl; [| auto].
    apply str_eqb_eq in E. subst t.
    apply hasTicker_false_iff, countTicker_zero_iff in Hnotin.
    unfold countTicker in Hnotin. rewrite Hnotin. lia.
Qed.

Lemma add_twice_same_ticker_witness :
  countTicker (lit "NVDA")
    (watchlist
       (run (handleAddToWatchlist Sample.nvda')
          (run (handleAddToWatchlist Sample.nvda)
             (Sample.withWatchlist [Sample.msft]))))
  = 1%nat.
Proof.
  apply (proj1 (proj2 (proj2
           (add_twice_same_ticker (lit "NVDA")
              (Sample.withWatchlist [Sample.msft]) Sample.nvda Sample.nvda'
              eq_refl eq_refl)))).
  vm_compute. apply le_S, le_n.
Defined.

(** C3: when no entry has ticker [t], remove(t) changes nothing; in
    every case what is left holds no entry with ticker [t], holds the
    entries with another ticker and no more, and keeps them in order:
    an entry is dropped or kept on its own, entry by entry. *)
Theorem remove_drops_ticker :
  forall (st : State) (t : jsstring),
    let W := watchlist st in
    let W' := watchlist (run (handleRemoveFromWatchlist t) st) in
    (hasTicker t W = false -> run (handleRemoveFromWatchlist t) st = st)
    /\ hasTicker t W' = false
    /\ (forall s, In s W' <-> In s W /\ ticker s <> t)
    /\ (forall W1 W2, W = W1 ++ W2 ->
                      W' = removeUpdater t W1 ++ removeUpdater t W2)
    /\ (forall s, removeUpdater t [s] = if str_eqb (ticker s) t then [] else [s]).
Proof.
  intros st t W W'. unfold W', W.
  cbn [run handleRemoveFromWatchlist apply watchlist].
  split; [| split; [| split; [| split]]].
  - intros H. rewrite removeUpdater_absent by exact H. destruct st. reflexivity.
  - apply hasTicker_removeUpdater.
  - intros s. apply removeUpdater_In.
  - intros W1 W2 ->. apply removeUpdater_app.
  - intros s. unfold removeUpdater. simpl. destruct (str_eqb (ticker s) t); reflexivity.
Qed.

Lemma remove_drops_ticker_witness :
  run (handleRemoveFromWatchlist (lit "NVDA")) (Sample.withWatchlist [Sample.msft])
  = Sample.withWatchlist [Sample.msft].
Proof.
  apply (proj1 (remove_drops_ticker (Sample.withWatchlist [Sample.msft])
                  (lit "NVDA"))).
  reflexivity.
Defined.

(** C4: the membership test is true right after add of a stock with
    ticker [t] and false right after remove(t). *)
Theorem contains_after_add_and_remove :
  forall (st : State) (stock : Stock) (t : jsstring),
    ticker stock = t ->
    isStockInWatchlist (run (handleAddToWatchlist stock) st) t = true
    /\ isStockInWatchlist (run (handleRemoveFromWatchlist t) st) t = false.
Proof.
  intros st stock t <-. unfold isStockInWatchlist.
  cbn [run handleAddToWatchlist handleRemoveFromWatchlist apply watchlist].
  split; [apply hasTicker_addUpdater | apply hasTicker_removeUpdater].
Qed.

Lemma contains_after_add_and_remove_witness :
  isStockInWatchlist (run (handleAddToWatchlist Sample.nvda) Sample.busy)
    (lit "NVDA") = true
  /\ isStockInWatchlist
       (run (handleRemoveFromWatchlist (lit "NVDA")) Sample.busy)
       (lit "NVDA") = false.
Proof.
  apply (contains_after_add_and_remove Sample.busy Sample.nvda (lit "NVDA")).
  reflexivity.
Defined.

(** ** The claims about a submission *)

(** C5: a query that is empty or holds white space only never reaches
    the service client, and the validation message becomes the error
    the page shows. *)
Theorem blank_query_refused :
  forall (fetchPromisingStocks : jsstring -> Settled) (q : jsstring)
         (st : State),
    isBlank q = true ->
    let es := handleSubmit fetchPromisingStocks q in
    fetched es = []
    /\ error (run es st) = Some (lit "Please enter a topic to search for.")
    /\ errorBanner (run es st) = Some (lit "Please enter a topic to search for.").
Proof.
  intros fetchPromisingStocks q st B es. unfold es.
  rewrite handleSubmit_blank by exact B.
  repeat split.
Qed.

Lemma blank_query_refused_witness :
  let es := handleSubmit (fun _ => Fulfilled {| Types.stocks := [Sample.nvda];
                                                Types.sources := [] |})
              [32; 9; 10; 0x3000] in
  fetched es = []
  /\ error (run es Sample.busy) = Some (lit "Please enter a topic to search for.")
  /\ errorBanner (run es Sample.busy)
     = Some (lit "Please enter a topic to search for.").
Proof.
  apply (blank_query_refused
           (fun _ => Fulfilled {| Types.stocks := [Sample.nvda];
                                  Types.sources := [] |})
           [32; 9; 10; 0x3000] Sample.busy).
  reflexivity.
Defined.

(** C6: when the service call on a query that is not blank fails, the
    stocks are empty and the error is the fixed prefix, the message of
    the [Error] and the fixed ending; for the message "timeout" this is
    "Failed to fetch stock data: timeout. Please try again."; when what
    was thrown is no [Error], the error is the generic message. *)
Theorem failed_fetch_error_message :
  forall (fetchPromisingStocks : jsstring -> Settled) (q : jsstring)
         (st : State) (err : Thrown),
    isBlank q = false ->
    fetchPromisingStocks q = Rejected err ->
    let final := run (handleSubmit fetchPromisingStocks q) st in
    stocks final = []
    /\ match err with
       | ErrorObject m =>
           error final
           = Some (lit "Failed to fetch stock data: " ++ m
                   ++ lit ". Please try again.")
       | NotAnError => error final = Some (lit "An unknown error occurred.")
       end
    /\ (err = ErrorObject (lit "timeout") ->
        error final
        = Some (lit "Failed to fetch stock data: timeout. Please try again.")).
Proof.
  intros fetchPromisingStocks q st err B R final. unfold final.
  rewrite handleSubmit_not_blank by exact B. rewrite R.
  destruct err as [m |]; (split; [reflexivity | split; [reflexivity |]]).
  - intros E. inversion E; subst. reflexivity.
  - discriminate.
Qed.

Lemma failed_fetch_error_message_witness :
  let final :=
    run (handleSubmit (fun _ => Rejected (ErrorObject (lit "timeout")))
           (lit "AI technology stocks")) Sample.busy in
  stocks final = []
  /\ error final
     = Some (lit "Failed to fetch stock data: timeout. Please try again.").
Proof.
  pose proof (failed_fetch_error_message
                (fun _ => Rejected (ErrorObject (lit "timeout")))
                (lit "AI technology stocks") Sample.busy
                (ErrorObject (lit "timeout")) eq_refl eq_refl) as H.
  cbv zeta in H. destruct H as [H1 [_ H3]].
  split; [exact H1 | exact (H3 eq_refl)].
Defined.

(** C7: a submission of a query that is not blank first sets error to
    null, empties stocks and sources and raises the loading flag, then
    calls the service client once with the query; when the call
    succeeds the returned stocks and sources are stored, when it fails
    an error message is; the loading flag is false at the end either
    way. *)
Theorem submit_resets_fetches_settles :
  forall (fetchPromisingStocks : jsstring -> Settled) (q : jsstring)
         (st : State),
    isBlank q = false ->
    let es := handleSubmit fetchPromisingStocks q in
    let atCall := run (beforeFetch es) st in
    let final := run es st in
    fetched es = [q]
    /\ (exists after, es = beforeFetch es ++ Fetch q :: after
                      /\ fetched after = []
                      /\ final = run after atCall)
    /\ error atCall = None /\ stocks atCall = [] /\ sources atCall = []
    /\ loading atCall = true
    /\ loading final = false
    /\ match fetchPromisingStocks q with
       | Fulfilled result =>
           stocks final = Types.stocks result
           /\ sources final = Types.sources result
           /\ error final = None
       | Rejected _ =>
           (exists message, error final = Some message)
           /\ stocks final = [] /\ sources final = []
       end.
Proof.
  intros fetchPromisingStocks q st B es atCall final.
  unfold final, atCall, es. rewrite handleSubmit_not_blank by exact B.
  destruct (fetchPromisingStocks q) as [result | [m |]];
    (split; [reflexivity |]);
    (split; [eexists; repeat split |]);
    repeat split; eexists; reflexivity.
Qed.

Lemma submit_resets_fetches_settles_witness :
  let es :=
    handleSubmit (fun _ => Fulfilled {| Types.stocks := [Sample.nvda];
                                        Types.sources := [Sample.source] |})
      (lit "AI technology stocks") in
  fetched es = [lit "AI technology stocks"]
  /\ error (run (beforeFetch es) Sample.busy) = None
  /\ loading (run (beforeFetch es) Sample.busy) = true
  /\ loading (run es Sample.busy) = false
  /\ stocks (run es Sample.busy) = [Sample.nvda]
  /\ sources (run es Sample.busy) = [Sample.source]
  /\ error (run es Sample.busy) = None.
Proof.
  pose proof (submit_resets_fetches_settles
                (fun _ => Fulfilled {| Types.stocks := [Sample.nvda];
                                       Types.sources := [Sample.source] |})
                (lit "AI technology stocks") Sample.busy eq_refl) as H.
  cbv zeta beta in H.
  destruct H as (H1 & _ & H3 & _ & _ & H6 & H7 & H8 & H9 & H10).
  repeat split; assumption.
Defined.

(** C10: a submission of a query that is not blank shows the search
    view before the service client is called, whatever view was shown,
    the watchlist view too; a blank submission leaves the view as it
    was. *)
Theorem submit_switches_to_search :
  forall (fetchPromisingStocks : jsstring -> Settled) (q : jsstring)
         (st : State),
    let es := handleSubmit fetchPromisingStocks q in
    (isBlank q = false ->
     fetched es = [q]
     /\ view (run (beforeFetch es) st) = ViewSearch
     /\ view (run es st) = ViewSearch)
    /\ (isBlank q = true -> fetched es = [] /\ view (run es st) = view st).
Proof.
  intros fetchPromisingStocks q st es. unfold es. split; intros B.
  - rewrite handleSubmit_not_blank by exact B.
    destruct (fetchPromisingStocks q) as [result | [m |]];
      repeat split.
  - rewrite handleSubmit_blank by exact B. split; reflexivity.
Qed.

Lemma submit_switches_to_search_witness :
  view Sample.busy = ViewWatchlist
  /\ view (run (beforeFetch
                  (handleSubmit (fun _ => Rejected NotAnError) (lit "E-commerce giants")))
             Sample.busy) = ViewSearch
  /\ view (run (handleSubmit (fun _ => Rejected NotAnError) [32; 32])
             Sample.busy) = ViewWatchlist.
Proof.
  pose proof (submit_switches_to_search (fun _ => Rejected NotAnError)
                (lit "E-commerce giants") Sample.busy) as H1.
  pose proof (submit_switches_to_search (fun _ => Rejected NotAnError)
                [32; 32] Sample.busy) as H2.
  cbv zeta in H1, H2.
  destruct (proj1 H1 eq_refl) as (_ & V1 & _).
  destruct (proj2 H2 eq_refl) as (_ & V2).
  repeat split; assumption.
Defined.

(** ** The claims about the stored watchlist *)

(** C8, as stated, fails: the empty string does not parse, and the
    first effect skips it without a log entry. *)
Lemma hydrate_empty_string_silent :
  JSON.parse [] = None
  /\ hydrate (GetReturns (Some [])) = Typed [].
Proof. split; reflexivity. Qed.

(** C8 (amended): when reading the storage throws, or returns a string
    that is not empty and does not parse, the first effect catches the
    exception and logs it, and the state stays the initial one: the
    watchlist empty, no error shown. When the key is absent or holds
    the empty string nothing is parsed and nothing logged, and the state
    stays the initial one as well. *)
Theorem hydrate_failure_caught :
  forall (read : GetItem),
    ((read = GetThrows
      \/ exists text, read = GetReturns (Some text)
                      /\ truthy text = true /\ JSON.parse text = None) ->
     exists e, hydrateTry read = inl e
               /\ hydrate read = Typed [ConsoleError loadFailure e]
               /\ watchlist (run [ConsoleError loadFailure e] initial) = []
               /\ error (run [ConsoleError loadFailure e] initial) = None
               /\ errorBanner (run [ConsoleError loadFailure e] initial) = None)
    /\ ((read = GetReturns None \/ read = GetReturns (Some [])) ->
        hydrateTry read = inr (Typed [])
        /\ hydrate read = Typed []
        /\ run [] initial = initial).
Proof.
  intros read. split.
  - intros [-> | (text & -> & T & P)].
    + exists SecurityError. repeat split.
    + exists SyntaxError. unfold hydrate, hydrateTry. rewrite T, P.
      repeat split.
  - intros [-> | ->]; repeat split.
Qed.

Lemma hydrate_failure_caught_witness :
  exists e, hydrateTry (GetReturns (Some (lit "[{oops"))) = inl e
            /\ hydrate (GetReturns (Some (lit "[{oops")))
               = Typed [ConsoleError loadFailure e]
            /\ watchlist (run [ConsoleError loadFailure e] initial) = []
            /\ error (run [ConsoleError loadFailure e] initial) = None
            /\ errorBanner (run [ConsoleError loadFailure e] initial) = None.
Proof.
  apply (proj1 (hydrate_failure_caught (GetReturns (Some (lit "[{oops"))))).
  right. exists (lit "[{oops"). repeat split.
Defined.

(** C9: the text the second effect writes for a watchlist is read back
    by the first effect of the next start as that watchlist. *)
Theorem persist_hydrate_roundtrip :
  forall (st : State) (stored : option jsstring),
    Forall wf_stock (watchlist st) ->
    let written := fst (persist SetStores st stored) in
    written = Some (JSON.stringify (watchlist st))
    /\ exists es, hydrate (GetReturns written) = Typed es
                  /\ watchlist (run es initial) = watchlist st.
Proof.
  intros st stored Hwf written. unfold written. cbn [persist fst].
  split; [reflexivity |].
  rewrite hydrate_stringify by exact Hwf.
  eexists. split; reflexivity.
Qed.

Lemma persist_hydrate_roundtrip_witness :
  exists es,
    hydrate (GetReturns
               (fst (persist SetStores
                       (Sample.withWatchlist [Sample.odd; Sample.nvda]) None)))
    = Typed es
    /\ watchlist (run es initial) = [Sample.odd; Sample.nvda].
Proof.
  apply (proj2 (persist_hydrate_roundtrip
                  (Sample.withWatchlist [Sample.odd; Sample.nvda]) None
                  ltac:(repeat constructor; unfold wf_codeunit; reflexivity))).
Defined.

(** * Further properties of the component *)

(** ** The watchlist handlers *)

Lemma str_eqb_sym (a b : jsstring) : str_eqb a b = str_eqb b a.
Proof.
  destruct (str_eqb a b) eqn:E.
  - apply str_eqb_eq in E. subst. symmetry. apply str_eqb_refl.
  - symmetry. apply str_eqb_neq. apply str_eqb_neq in E. congruence.
Qed.

Lemma hasTicker_removeUpdater_other (t t' : jsstring) (W : list Stock) :
  hasTicker t' (removeUpdater t W) = hasTicker t' W && negb (str_eqb t t').
Proof.
  unfold hasTicker, removeUpdater. induction W as [|s W IH]; [reflexivity |].
  cbn [filter existsb].
  destruct (str_eqb (ticker s) t) eqn:Est; cbn [negb existsb].
  - apply str_eqb_eq in Est. rewrite IH, Est.
    destruct (str_eqb t t'); cbn; rewrite ?andb_false_r; reflexivity.
  - rewrite IH. destruct (str_eqb (ticker s) t') eqn:Est'; cbn; [| reflexivity].
    apply str_eqb_eq in Est'. subst t'.
    rewrite str_eqb_sym, Est. reflexivity.
Qed.

Lemma countTicker_removeUpdater_length (t : jsstring) (W : list Stock) :
  (List.length (removeUpdater t W) + countTicker t W = List.length W)%nat.
Proof.
  unfold removeUpdater, countTicker. induction W as [|s W IH]; [reflexivity |].
  cbn [filter]. destruct (str_eqb (ticker s) t); cbn [negb List.length]; lia.
Qed.

(** X1: add leaves the entries the watchlist holds where they are: the
    old watchlist is the beginning of the new one, which is longer by
    one exactly when the ticker was absent; when the ticker is present
    the state stays as it is, the stored entry with its data too. *)
Theorem add_keeps_entries :
  forall (st : State) (stock : Stock),
    let W := watchlist st in
    let W' := watchlist (run (handleAddToWatchlist stock) st) in
    firstn (List.length W) W' = W
    /\ List.length W'
       = (List.length W
          + (if isStockInWatchlist st (ticker stock) then 0 else 1))%nat
    /\ (forall s, In s W -> In s W')
    /\ (isStockInWatchlist st (ticker stock) = true ->
        run (handleAddToWatchlist stock) st = st).
Proof.
  intros st stock W W'. unfold W', W, isStockInWatchlist.
  cbn [run handleAddToWatchlist apply watchlist]. unfold addUpdater.
  destruct (hasTicker (ticker stock) (watchlist st)) eqn:E.
  - repeat split.
    + apply firstn_all.
    + lia.
    + auto.
    + intros _. destruct st. reflexivity.
  - repeat split.
    + rewrite firstn_app, firstn_all, PeanoNat.Nat.sub_diag. cbn. apply app_nil_r.
    + rewrite length_app. reflexivity.
    + intros s Hs. apply in_or_app. left. exact Hs.
    + discriminate.
Qed.

Lemma add_keeps_entries_witness :
  run (handleAddToWatchlist Sample.nvda')
    (Sample.withWatchlist [Sample.msft; Sample.nvda])
  = Sample.withWatchlist [Sample.msft; Sample.nvda].
Proof.
  apply (proj2 (proj2 (proj2
           (add_keeps_entries (Sample.withWatchlist [Sample.msft; Sample.nvda])
              Sample.nvda')))).
  reflexivity.
Defined.

Lemma isStockInWatchlist_after_add (st : State) (stock : Stock) (t' : jsstring) :
  isStockInWatchlist (run (handleAddToWatchlist stock) st) t'
  = isStockInWatchlist st t' || str_eqb (ticker stock) t'.
Proof.
  unfold isStockInWatchlist.
  cbn [run handleAddToWatchlist apply watchlist]. unfold addUpdater.
  destruct (hasTicker (ticker stock) (watchlist st)) eqn:E.
  - destruct (str_eqb (ticker stock) t') eqn:E'.
    + apply str_eqb_eq in E'. subst t'. rewrite E. reflexivity.
    + rewrite orb_false_r. reflexivity.
  - rewrite hasTicker_app. cbn. rewrite orb_false_r. reflexivity.
Qed.

Lemma isStockInWatchlist_after_remove (st : State) (t t' : jsstring) :
  isStockInWatchlist (run (handleRemoveFromWatchlist t) st) t'
  = isStockInWatchlist st t' && negb (str_eqb t t').
Proof.
  unfold isStockInWatchlist.
  cbn [run handleRemoveFromWatchlist apply watchlist].
  apply hasTicker_removeUpdater_other.
Qed.

(** X2: add and remove change the membership test for their own ticker
    only: after add of a stock a ticker is in the watchlist when it was
    before or is the ticker of the stock, and after remove of [t] when
    it was before and is not [t]. *)
Theorem membership_of_other_tickers :
  forall (st : State) (stock : Stock) (t t' : jsstring),
    (isStockInWatchlist (run (handleAddToWatchlist stock) st) t'
     = isStockInWatchlist st t' || str_eqb (ticker stock) t')
    /\ (isStockInWatchlist (run (handleRemoveFromWatchlist t) st) t'
        = isStockInWatchlist st t' && negb (str_eqb t t'))
    /\ (ticker stock <> t' ->
        isStockInWatchlist (run (handleAddToWatchlist stock) st) t'
        = isStockInWatchlist st t')
    /\ (t <> t' ->
        isStockInWatchlist (run (handleRemoveFromWatchlist t) st) t'
        = isStockInWatchlist st t').
Proof.
  intros st stock t t'.
  rewrite isStockInWatchlist_after_add, isStockInWatchlist_after_remove.
  repeat split.
  - intros N. apply str_eqb_neq in N. rewrite N. apply orb_false_r.
  - intros N. apply str_eqb_neq in N. rewrite N. apply andb_true_r.
Qed.

Lemma membership_of_other_tickers_witness :
  isStockInWatchlist
    (run (handleRemoveFromWatchlist (lit "NVDA"))
       (Sample.withWatchlist [Sample.nvda; Sample.msft]))
    (lit "MSFT")
  = isStockInWatchlist (Sample.withWatchlist [Sample.nvda; Sample.msft])
      (lit "MSFT").
Proof.
  apply (proj2 (proj2 (proj2
           (membership_of_other_tickers
              (Sample.withWatchlist [Sample.nvda; Sample.msft])
              Sample.nvda (lit "NVDA") (lit "MSFT"))))).
  discriminate.
Defined.

(** X3: remove undoes add: when the ticker of a stock is not in the
    watchlist, adding the stock and then removing its ticker gives the
    state back. *)
Theorem remove_undoes_add :
  forall (st : State) (stock : Stock),
    isStockInWatchlist st (ticker stock) = false ->
    run (handleRemoveFromWatchlist (ticker stock))
      (run (handleAddToWatchlist stock) st)
    = st.
Proof.
  intros st stock H. unfold isStockInWatchlist in H.
  cbn [run handleAddToWatchlist handleRemoveFromWatchlist apply watchlist
       query stocks sources loading error view].
  unfold addUpdater. rewrite H, removeUpdater_app.
  rewrite removeUpdater_absent by exact H.
  unfold removeUpdater. cbn [filter]. rewrite str_eqb_refl. cbn [negb].
  rewrite app_nil_r. destruct st. reflexivity.
Qed.

Lemma remove_undoes_add_witness :
  run (handleRemoveFromWatchlist (lit "NVDA"))
    (run (handleAddToWatchlist Sample.nvda) Sample.busy)
  = Sample.busy.
Proof.
  apply (remove_undoes_add Sample.busy Sample.nvda). reflexivity.
Defined.

(** X4: remove twice is remove once, and two removes give the same
    state in either order. *)
Theorem remove_idempotent_commutes :
  forall (st : State) (t1 t2 : jsstring),
    run (handleRemoveFromWatchlist t1) (run (handleRemoveFromWatchlist t1) st)
    = run (handleRemoveFromWatchlist t1) st
    /\ run (handleRemoveFromWatchlist t1) (run (handleRemoveFromWatchlist t2) st)
       = run (handleRemoveFromWatchlist t2) (run (handleRemoveFromWatchlist t1) st).
Proof.
  intros st t1 t2.
  cbn [run handleRemoveFromWatchlist apply watchlist
       query stocks sources loading error view].
  split; f_equal.
  - apply removeUpdater_absent, hasTicker_removeUpdater.
  - unfold removeUpdater. induction (watchlist st) as [|s W IH]; [reflexivity |].
    cbn [filter].
    destruct (str_eqb (ticker s) t1) eqn:E1, (str_eqb (ticker s) t2) eqn:E2;
      cbn [negb filter]; rewrite ?E1, ?E2; cbn [negb]; rewrite IH; reflexivity.
Qed.

(** X5: remove of a ticker and then add of a stock with that ticker
    leaves exactly one entry with the ticker, the stock that was added,
    at the end of the watchlist, however many entries had the ticker
    before. *)
Theorem add_after_remove_single_entry :
  forall (st : State) (stock : Stock),
    let st' := run (handleAddToWatchlist stock)
                 (run (handleRemoveFromWatchlist (ticker stock)) st) in
    watchlist st' = removeUpdater (ticker stock) (watchlist st) ++ [stock]
    /\ countTicker (ticker stock) (watchlist st') = 1%nat
    /\ filter (fun s => str_eqb (ticker s) (ticker stock)) (watchlist st')
       = [stock].
Proof.
  intros st stock st'. unfold st'.
  cbn [run handleAddToWatchlist handleRemoveFromWatchlist apply watchlist].
  unfold addUpdater. rewrite hasTicker_removeUpdater.
  pose proof (hasTicker_removeUpdater (ticker stock) (watchlist st)) as H.
  apply countTicker_zero_iff in H.
  assert (filter (fun s => str_eqb (ticker s) (ticker stock))
            (removeUpdater (ticker stock) (watchlist st)) = []) as F
      by (apply length_zero_iff_nil; exact H).
  split; [reflexivity | split].
  - rewrite countTicker_app, H.
    unfold countTicker. cbn [filter]. rewrite str_eqb_refl. reflexivity.
  - rewrite filter_app, F. cbn [filter app]. rewrite str_eqb_refl. reflexivity.
Qed.

(** ** Submissions *)

Lemma submit_frame_watchlist
    (fetchPromisingStocks : jsstring -> Settled) (q : jsstring) (st : State) :
  watchlist (run (handleSubmit fetchPromisingStocks q) st) = watchlist st
  /\ forall t, isStockInWatchlist (run (handleSubmit fetchPromisingStocks q) st) t
               = isStockInWatchlist st t.
Proof.
  unfold handleSubmit, isStockInWatchlist.
  destruct (negb (truthy (trim q))); [split; reflexivity |].
  destruct (fetchPromisingStocks q) as [result | [m |]]; split; reflexivity.
Qed.

Lemma handleSubmit_keeps_query
    (fetchPromisingStocks : jsstring -> Settled) (q : jsstring) (st : State) :
  query (run (handleSubmit fetchPromisingStocks q) st) = query st.
Proof.
  unfold handleSubmit.
  destruct (negb (truthy (trim q))); [reflexivity |].
  destruct (fetchPromisingStocks q) as [result | [m |]]; reflexivity.
Qed.

(** X6: a submission never changes the watchlist or the query text, so
    the membership test answers as before; a blank submission leaves
    the earlier stocks and sources, the loading flag and the view as
    they are as well. *)
Theorem submit_leaves_watchlist_and_query :
  forall (fetchPromisingStocks : jsstring -> Settled) (q : jsstring)
         (st : State),
    let final := run (handleSubmit fetchPromisingStocks q) st in
    watchlist final = watchlist st
    /\ query final = query st
    /\ (forall t, isStockInWatchlist final t = isStockInWatchlist st t)
    /\ (isBlank q = true ->
        stocks final = stocks st /\ sources final = sources st
        /\ loading final = loading st /\ view final = view st).
Proof.
  intros fetchPromisingStocks q st final. unfold final.
  destruct (isBlank q) eqn:B.
  - rewrite handleSubmit_blank by exact B. repeat split.
  - rewrite handleSubmit_not_blank by exact B.
    destruct (fetchPromisingStocks q) as [result | [m |]];
      (repeat split; discriminate).
Qed.

Lemma submit_leaves_watchlist_and_query_witness :
  stocks (run (handleSubmit (fun _ => Rejected NotAnError) [32; 10]) Sample.busy)
  = [Sample.msft].
Proof.
  apply (proj2 (proj2 (proj2
           (submit_leaves_watchlist_and_query (fun _ => Rejected NotAnError)
              [32; 10] Sample.busy)))).
  reflexivity.
Defined.

(** X7: choosing an example sets the query text to the example and
    submits that text; each of the four examples of the page is not
    blank, so it reaches the service client once, with the search view
    shown and the query text already set when the call is made. *)
Theorem example_click_submits :
  forall (fetchPromisingStocks : jsstring -> Settled) (ex : jsstring)
         (st : State),
    let es := handleExampleClick fetchPromisingStocks ex in
    query (run es st) = ex
    /\ fetched es = fetched (handleSubmit fetchPromisingStocks ex)
    /\ (In ex Page.exampleQueries ->
        fetched es = [ex]
        /\ query (run (beforeFetch es) st) = ex
        /\ view (run (beforeFetch es) st) = ViewSearch
        /\ loading (run (beforeFetch es) st) = true
        /\ loading (run es st) = false).
Proof.
  intros fetchPromisingStocks ex st es. unfold es, handleExampleClick.
  split; [| split; [reflexivity |]].
  - cbn [run]. rewrite handleSubmit_keeps_query. reflexivity.
  - intros Hin.
    assert (isBlank ex = false) as B.
    { cbn [Page.exampleQueries In] in Hin.
      destruct Hin as [<- | [<- | [<- | [<- | []]]]]; reflexivity. }
    rewrite handleSubmit_not_blank by exact B.
    destruct (fetchPromisingStocks ex) as [result | [m |]]; repeat split.
Qed.

Lemma example_click_submits_witness :
  fetched (handleExampleClick (fun _ => Rejected NotAnError)
             (lit "Cybersecurity firms"))
  = [lit "Cybersecurity firms"].
Proof.
  apply (proj2 (proj2
           (example_click_submits (fun _ => Rejected NotAnError)
              (lit "Cybersecurity firms") Sample.busy))).
  right. right. right. left. reflexivity.
Defined.

(** X8: [handleSubmit] has no guard against a call made while another
    one is pending. When two calls overlap and the second one settles
    first, the loading flag is false from then on although the first
    call is still pending; at the end the stocks and sources are those
    of the call that settled last if it succeeded, else those of the
    other call, and the error is that of the call that settled last if
    it failed, else that of the other call: a success does not clear
    the error of the other call. *)
Theorem overlapping_submissions :
  forall (fetch1 fetch2 : jsstring -> Settled) (q1 q2 : jsstring)
         (st : State),
    isBlank q1 = false -> isBlank q2 = false ->
    let first := handleSubmit fetch1 q1 in
    let second := handleSubmit fetch2 q2 in
    let final := Async.overlapped first second st in
    first = beforeFetch first ++ Fetch q1 :: Async.afterFetch first
    /\ second = beforeFetch second ++ Fetch q2 :: Async.afterFetch second
    /\ loading (Async.secondSettled first second st) = false
    /\ loading final = false
    /\ stocks final
       = match fetch1 q1, fetch2 q2 with
         | Fulfilled r1, _ => Types.stocks r1
         | Rejected _, Fulfilled r2 => Types.stocks r2
         | Rejected _, Rejected _ => []
         end
    /\ sources final
       = match fetch1 q1, fetch2 q2 with
         | Fulfilled r1, _ => Types.sources r1
         | Rejected _, Fulfilled r2 => Types.sources r2
         | Rejected _, Rejected _ => []
         end
    /\ error final
       = match fetch1 q1, fetch2 q2 with
         | Rejected e1, _ => Some (Async.messageOf e1)
         | Fulfilled _, Rejected e2 => Some (Async.messageOf e2)
         | Fulfilled _, Fulfilled _ => None
         end.
Proof.
  intros fetch1 fetch2 q1 q2 st B1 B2 first second final.
  unfold final, first, second, Async.overlapped, Async.secondSettled.
  rewrite !handleSubmit_not_blank by assumption.
  destruct (fetch1 q1) as [r1 | [m1 |]], (fetch2 q2) as [r2 | [m2 |]];
    repeat split.
Qed.

Lemma overlapping_submissions_witness :
  let first :=
    handleSubmit (fun _ => Rejected (ErrorObject (lit "timeout"))) (lit "old") in
  let second :=
    handleSubmit (fun _ => Fulfilled {| Types.stocks := [Sample.nvda];
                                        Types.sources := [] |}) (lit "new") in
  stocks (Async.overlapped first second Sample.busy) = [Sample.nvda]
  /\ error (Async.overlapped first second Sample.busy)
     = Some (lit "Failed to fetch stock data: timeout. Please try again.").
Proof.
  pose proof (overlapping_submissions
                (fun _ => Rejected (ErrorObject (lit "timeout")))
                (fun _ => Fulfilled {| Types.stocks := [Sample.nvda];
                                       Types.sources := [] |})
                (lit "old") (lit "new") Sample.busy eq_refl eq_refl) as H.
  cbv zeta beta in H.
  destruct H as (_ & _ & _ & _ & H5 & _ & H7).
  split; [exact H5 | exact H7].
Defined.

(** ** What the page shows *)

Lemma hasTicker_of_entry (s : Stock) (W : list Stock) :
  In s W -> hasTicker (ticker s) W = true.
Proof.
  intros H. apply hasTicker_true_iff, in_map. exact H.
Qed.

Lemma truthy_messageOf (err : Thrown) : truthy (Async.messageOf err) = true.
Proof. destruct err; reflexivity. Qed.



(** X10: while the service call of a submission is pending the page
    shows the spinner and no error, no results and no watchlist
    section, also when the user switches to the watchlist tab; on the
    search tab the form is told that it is loading and every example
    button is disabled. *)
Theorem page_while_pending :
  forall (fetchPromisingStocks : jsstring -> Settled) (q : jsstring)
         (st : State) (v : View),
    isBlank q = false ->
    let pending := run (beforeFetch (handleSubmit fetchPromisingStocks q)) st in
    let p := Page.render (run (effects (ChangeView v)) pending) in
    Page.render pending = Page.render (run (effects (ChangeView ViewSearch)) pending)
    /\ Page.spinner p = true
    /\ Page.banner p = None
    /\ Page.results p = None
    /\ Page.watchlistSection p = None
    /\ Page.searchSection p
       = match v with
         | ViewSearch =>
             Some {| Page.formQuery := query st;
                     Page.formLoading := true;
                     Page.exampleButtons :=
                       map (fun ex => (ex, true)) Page.exampleQueries |}
         | ViewWatchlist => None
         end.
Proof.
  intros fetchPromisingStocks q st v B pending p. unfold p, pending.
  rewrite handleSubmit_not_blank by exact B.
  destruct v; repeat split.
Qed.

Lemma page_while_pending_witness :
  Page.watchlistSection
    (Page.render
       (run (effects (ChangeView ViewWatchlist))
          (run (beforeFetch
                  (handleSubmit (fun _ => Rejected NotAnError) (lit "AI")))
             Sample.busy)))
  = None.
Proof.
  pose proof (page_while_pending (fun _ => Rejected NotAnError) (lit "AI")
                Sample.busy ViewWatchlist eq_refl) as H.
  cbv zeta in H. destruct H as (_ & _ & _ & _ & H & _). exact H.
Defined.

(** X11: after a submission that failed the page shows the error
    message and neither spinner nor results; the message stays on the
    page when the user switches tabs, edits the query or adds to or
    removes from the watchlist: only a submission changes it. *)
Theorem page_after_failed_submission :
  forall (fetchPromisingStocks : jsstring -> Settled) (q : jsstring)
         (st : State) (err : Thrown),
    isBlank q = false ->
    fetchPromisingStocks q = Rejected err ->
    let final := run (handleSubmit fetchPromisingStocks q) st in
    Page.banner (Page.render final) = Some (Async.messageOf err)
    /\ Page.spinner (Page.render final) = false
    /\ Page.results (Page.render final) = None
    /\ (forall a : Action,
           match a with
           | Submit _ _ | ExampleClick _ _ => True
           | _ =>
               Page.banner (Page.render (run (effects a) final))
               = Some (Async.messageOf err)
           end).
Proof.
  intros fetchPromisingStocks q st err B F final. unfold final.
  rewrite handleSubmit_not_blank by exact B. rewrite F.
  assert (forall st0,
             errorBanner
               (run ([SetView ViewSearch; SetLoading true; SetError None;
                      SetStocks []; SetSources []]
                     ++ Fetch q
                     :: match err with
                        | ErrorObject message =>
                            [SetError (Some (failureMessage message))]
                        | NotAnError => [SetError (Some unknownMessage)]
                        end ++ [SetLoading false]) st0)
             = Some (Async.messageOf err)) as H.
  { intros st0. destruct err; reflexivity. }
  split; [apply H | split; [| split]].
  - destruct err; reflexivity.
  - destruct err; reflexivity.
  - intros [stock | t | q' s' | q' s' | q' | v]; try exact I;
      destruct err; reflexivity.
Qed.

Lemma page_after_failed_submission_witness :
  Page.banner
    (Page.render
       (run (effects (ChangeView ViewWatchlist))
          (run (handleSubmit (fun _ => Rejected (ErrorObject (lit "timeout")))
                  (lit "AI"))
             Sample.busy)))
  = Some (lit "Failed to fetch stock data: timeout. Please try again.").
Proof.
  pose proof (page_after_failed_submission
                (fun _ => Rejected (ErrorObject (lit "timeout"))) (lit "AI")
                Sample.busy _ eq_refl eq_refl) as H.
  cbv zeta in H. destruct H as (_ & _ & _ & H).
  exact (H (ChangeView ViewWatchlist)).
Defined.

Lemma nonEmpty_length {A : Type} (l : list A) :
  Page.nonEmpty l = negb (Nat.eqb (List.length l) 0).
Proof. destruct l; reflexivity. Qed.

(** X12: a card of the search results is marked by the membership test
    of its ticker, and a card of the watchlist view, always marked, is
    one the membership test answers true for; the cards of the
    watchlist view are the watchlist in its order. After add of a stock
    the results show the same cards and links, with the cards of its
    ticker marked in addition; after remove of [t] the same, with the
    cards of ticker [t] no longer marked. *)
Theorem cards_marked_by_membership :
  forall (st : State) (stock : Stock) (t : jsstring),
    (forall r c,
        Page.results (Page.render st) = Some r -> In c (Page.cards r) ->
        Page.isInWatchlist c = isStockInWatchlist st (ticker (Page.stock c)))
    /\ (forall shown,
           Page.watchlistSection (Page.render st)
           = Some (Page.WatchlistCards shown) ->
           map Page.stock shown = watchlist st
           /\ forall c, In c shown ->
                        Page.isInWatchlist c = true
                        /\ isStockInWatchlist st (ticker (Page.stock c)) = true)
    /\ Page.results (Page.render (run (handleAddToWatchlist stock) st))
       = option_map
           (fun r =>
              {| Page.cards :=
                   map (fun c =>
                          {| Page.stock := Page.stock c;
                             Page.isInWatchlist :=
                               Page.isInWatchlist c
                               || str_eqb (ticker stock) (ticker (Page.stock c)) |})
                     (Page.cards r);
                 Page.sourceLinks := Page.sourceLinks r |})
           (Page.results (Page.render st))
    /\ Page.results (Page.render (run (handleRemoveFromWatchlist t) st))
       = option_map
           (fun r =>
              {| Page.cards :=
                   map (fun c =>
                          {| Page.stock := Page.stock c;
                             Page.isInWatchlist :=
                               Page.isInWatchlist c
                               && negb (str_eqb t (ticker (Page.stock c))) |})
                     (Page.cards r);
                 Page.sourceLinks := Page.sourceLinks r |})
           (Page.results (Page.render st)).
Proof.
  intros st stock t. split; [| split; [| split]].
  - intros r c Hr Hc. unfold Page.render in Hr. cbn [Page.results] in Hr.
    destruct (negb (loading st) && Page.isView ViewSearch st
              && Page.nonEmpty (stocks st)); [| discriminate].
    inversion Hr; subst r. cbn [Page.cards] in Hc.
    apply in_map_iff in Hc. destruct Hc as [s [<- _]]. reflexivity.
  - intros shown Hs. unfold Page.render in Hs. cbn [Page.watchlistSection] in Hs.
    destruct (negb (loading st) && Page.isView ViewWatchlist st);
      [| discriminate].
    destruct (Page.nonEmpty (watchlist st)); [| discriminate].
    inversion Hs; subst shown. split.
    + rewrite map_map. cbn [Page.stock]. apply map_id.
    + intros c Hc. apply in_map_iff in Hc. destruct Hc as [s [<- Hin]].
      split; [reflexivity |]. cbn [Page.stock]. apply hasTicker_of_entry, Hin.
  - unfold Page.render. cbn [Page.results].
    cbn [run handleAddToWatchlist apply loading stocks sources view].
    unfold Page.isView at 1. cbn [view]. fold (Page.isView ViewSearch st).
    destruct (negb (loading st) && Page.isView ViewSearch st
              && Page.nonEmpty (stocks st)); [| reflexivity].
    cbn [option_map Page.cards Page.sourceLinks]. do 2 f_equal.
    rewrite map_map. apply map_ext. intros s. cbn [Page.stock Page.isInWatchlist].
    f_equal.
    apply isStockInWatchlist_after_add.
  - unfold Page.render. cbn [Page.results].
    cbn [run handleRemoveFromWatchlist apply loading stocks sources view].
    unfold Page.isView at 1. cbn [view]. fold (Page.isView ViewSearch st).
    destruct (negb (loading st) && Page.isView ViewSearch st
              && Page.nonEmpty (stocks st)); [| reflexivity].
    cbn [option_map Page.cards Page.sourceLinks]. do 2 f_equal.
    rewrite map_map. apply map_ext. intros s. cbn [Page.stock Page.isInWatchlist].
    f_equal.
    apply isStockInWatchlist_after_remove.
Qed.

Lemma cards_marked_by_membership_witness :
  map Page.stock [{| Page.stock := Sample.msft; Page.isInWatchlist := true |}]
  = watchlist Sample.busy.
Proof.
  apply (proj1 (proj2 (cards_marked_by_membership Sample.busy Sample.nvda
                         (lit "NVDA")))
           [{| Page.stock := Sample.msft; Page.isInWatchlist := true |}]).
  reflexivity.
Defined.

(** X13: the count next to the watchlist tab is the number of entries
    and is absent exactly when the watchlist is empty; add of a stock
    raises it by one when the ticker was absent and leaves it
    otherwise, remove of [t] lowers it by the number of entries with
    ticker [t]; on the watchlist tab the note for an empty watchlist is
    shown exactly when the count is absent. *)
Theorem badge_counts_watchlist :
  forall (st : State) (stock : Stock) (t : jsstring),
    let badgeOf s := Page.badge (Page.tabs (Page.render s)) in
    (badgeOf st = None <-> watchlist st = [])
    /\ (forall n, badgeOf st = Some n ->
                  n = List.length (watchlist st) /\ (0 < n)%nat)
    /\ badgeOf (run (handleAddToWatchlist stock) st)
       = Some (List.length (watchlist st)
               + (if isStockInWatchlist st (ticker stock) then 0 else 1))%nat
    /\ badgeOf (run (handleRemoveFromWatchlist t) st)
       = (if Nat.eqb (countTicker t (watchlist st)) (List.length (watchlist st))
          then None
          else Some (List.length (watchlist st) - countTicker t (watchlist st))%nat)
    /\ (loading st = false -> view st = ViewWatchlist ->
        (Page.watchlistSection (Page.render st) = Some Page.WatchlistEmpty
         <-> badgeOf st = None)).
Proof.
  intros st stock t badgeOf. unfold badgeOf, Page.render.
  cbn [Page.tabs Page.badge Page.watchlistSection].
  split; [| split; [| split; [| split]]].
  - destruct (watchlist st); cbn; split; congruence.
  - intros n. destruct (watchlist st); cbn; intros H; inversion H.
    split; [reflexivity | lia].
  - cbn [run handleAddToWatchlist apply watchlist]. unfold isStockInWatchlist, addUpdater.
    destruct (hasTicker (ticker stock) (watchlist st)) eqn:E.
    + destruct (watchlist st); [discriminate |]. cbn. f_equal. lia.
    + rewrite nonEmpty_length, length_app. cbn [List.length].
      replace (List.length (watchlist st) + 1)%nat
        with (S (List.length (watchlist st))) by lia.
      reflexivity.
  - cbn [run handleRemoveFromWatchlist apply watchlist].
    pose proof (countTicker_removeUpdater_length t (watchlist st)) as L.
    rewrite nonEmpty_length.
    destruct (PeanoNat.Nat.eqb_spec (countTicker t (watchlist st))
                (List.length (watchlist st))) as [E | N].
    + replace (List.length (removeUpdater t (watchlist st))) with 0%nat by lia.
      reflexivity.
    + destruct (PeanoNat.Nat.eqb_spec (List.length (removeUpdater t (watchlist st))) 0)
        as [E0 | N0]; [lia |].
      cbn [negb]. f_equal. lia.
  - intros Hl Hv. rewrite Hl. unfold Page.isView. rewrite Hv. cbn [negb andb].
    destruct (watchlist st); cbn; split; congruence.
Qed.

Lemma badge_counts_watchlist_witness :
  Page.watchlistSection
    (Page.render
       (run (handleRemoveFromWatchlist (lit "MSFT")) Sample.busy))
  = Some Page.WatchlistEmpty.
Proof.
  apply (proj2 (proj2 (proj2 (proj2
           (badge_counts_watchlist
              (run (handleRemoveFromWatchlist (lit "MSFT")) Sample.busy)
              Sample.nvda (lit "NVDA")))))); reflexivity.
Defined.

(** ** Sessions *)

Lemma persistNow_stores (w : Session.World) :
  Session.persistNow SetStores w
  = {| Session.state := Session.state w;
       Session.stored := Some (JSON.stringify (watchlist (Session.state w)));
       Session.console := Session.console w |}.
Proof.
  unfold Session.persistNow. cbn [persist filter run].
  rewrite app_nil_r. reflexivity.
Qed.

Lemma act_synced (a : Action) (w : Session.World) :
  Session.synced w -> Session.synced (Session.act SetStores a w).
Proof.
  unfold Session.synced, Session.act. intros H.
  destruct (Session.newWatchlist a (Session.state w)) eqn:N.
  - rewrite persistNow_stores. reflexivity.
  - cbn [Session.stored Session.state]. rewrite H. do 2 f_equal.
    destruct a as [stock | t | q settled | q settled | q | v];
      cbn [Session.newWatchlist] in N; try discriminate.
    + apply negb_false_iff in N.
      cbn [effects run handleAddToWatchlist apply watchlist].
      unfold addUpdater. rewrite N. reflexivity.
    + symmetry. cbn [effects].
      apply (proj1 (submit_frame_watchlist _ _ _)).
    + symmetry. cbn [effects handleExampleClick run].
      rewrite (proj1 (submit_frame_watchlist _ _ _)). reflexivity.
    + reflexivity.
    + reflexivity.
Qed.

Lemma start_synced (getThrows : bool) (stored0 : option jsstring)
    (w : Session.World) :
  Session.start getThrows SetStores SetStores stored0 = Some w ->
  Session.synced w.
Proof.
  unfold Session.start, Session.synced.
  destruct (hydrate (if getThrows then GetThrows else GetReturns stored0))
    as [es | v]; [| discriminate].
  rewrite !persistNow_stores.
  destruct (existsb Session.isSetWatchlist es); intros H; inversion H;
    reflexivity.
Qed.

Lemma acts_synced (steps : list (SetItem * Action)) :
  forall w,
    Forall (fun step => fst step = SetStores) steps ->
    Session.synced w -> Session.synced (Session.acts steps w).
Proof.
  induction steps as [| [write a] steps IH]; intros w Hall Hs; [exact Hs |].
  inversion Hall as [| x l Hw Hrest]; subst. cbn [fst] in Hw. subst write.
  cbn [Session.acts]. apply IH; [exact Hrest |]. apply act_synced, Hs.
Qed.

Lemma start_from_stringify (W : list Stock) :
  Forall wf_stock W ->
  Session.start false SetStores SetStores (Some (JSON.stringify W))
  = Some {| Session.state := run [SetWatchlist (fun _ => W)] initial;
            Session.stored := Some (JSON.stringify W);
            Session.console := [] |}.
Proof.
  intros Hwf. unfold Session.start.
  rewrite hydrate_stringify by exact Hwf.
  cbn [existsb Session.isSetWatchlist orb filter Session.isConsoleError].
  rewrite !persistNow_stores. reflexivity.
Qed.

(** X14: when the first effect hydrates nothing, because reading the
    storage throws, the key is absent or empty, or the stored text does
    not parse, and the storage can be written, mounting leaves the
    initial state and the text of the empty list in the storage: a
    stored text that does not parse is overwritten. *)
Theorem start_overwrites_unusable_storage :
  forall (getThrows : bool) (write2 : SetItem) (stored0 : option jsstring),
    (getThrows = true \/ stored0 = None \/ stored0 = Some []
     \/ exists text, stored0 = Some text /\ JSON.parse text = None) ->
    exists w,
      Session.start getThrows SetStores write2 stored0 = Some w
      /\ Session.state w = initial
      /\ Session.stored w = Some (lit "[]")
      /\ (List.length (Session.console w) <= 1)%nat.
Proof.
  intros getThrows write2 stored0 H. unfold Session.start.
  assert (exists es,
             hydrate (if getThrows then GetThrows else GetReturns stored0)
             = Typed es
             /\ existsb Session.isSetWatchlist es = false
             /\ (List.length (filter Session.isConsoleError es) <= 1)%nat)
    as (es & -> & -> & L).
  { destruct getThrows; [eexists; repeat split; cbn; lia |].
    destruct H as [H | [-> | [-> | (text & -> & P)]]];
      [discriminate | | |]; try (eexists; repeat split; cbn; lia).
    unfold hydrate, hydrateTry. rewrite P.
    destruct (truthy text); eexists; repeat split; cbn; lia. }
  rewrite persistNow_stores. eexists. repeat split. exact L.
Qed.

Lemma start_overwrites_unusable_storage_witness :
  exists w,
    Session.start false SetStores SetStores (Some (lit "[{oops")) = Some w
    /\ Session.state w = initial
    /\ Session.stored w = Some (lit "[]")
    /\ (List.length (Session.console w) <= 1)%nat.
Proof.
  apply (start_overwrites_unusable_storage false SetStores (Some (lit "[{oops"))).
  right. right. right. exists (lit "[{oops"). split; reflexivity.
Defined.

(** X15: in a session whose storage can be written, the stored text is
    the text of the watchlist after the mount and after every handler
    call, whatever the handlers were; mounting again from that text
    gives the same watchlist and leaves the same text, and logs
    nothing. *)
Theorem session_survives_restart :
  forall (getThrows : bool) (stored0 : option jsstring)
         (w0 : Session.World) (steps : list (SetItem * Action)),
    Session.start getThrows SetStores SetStores stored0 = Some w0 ->
    Forall (fun step => fst step = SetStores) steps ->
    let w := Session.acts steps w0 in
    Session.synced w
    /\ (Forall wf_stock (watchlist (Session.state w)) ->
        exists w',
          Session.start false SetStores SetStores (Session.stored w) = Some w'
          /\ watchlist (Session.state w') = watchlist (Session.state w)
          /\ Session.stored w' = Session.stored w
          /\ Session.console w' = []).
Proof.
  intros getThrows stored0 w0 steps Hstart Hall w.
  assert (Session.synced w) as Hs
      by (apply acts_synced; [exact Hall | apply (start_synced _ _ _ Hstart)]).
  split; [exact Hs |].
  intros Hwf. rewrite Hs, start_from_stringify by exact Hwf.
  eexists. repeat split.
Qed.

Lemma session_survives_restart_witness :
  exists w',
    Session.start false SetStores SetStores
      (Session.stored
         (Session.acts
            [(SetStores, AddToWatchlist Sample.odd);
             (SetStores, AddToWatchlist Sample.nvda);
             (SetStores, RemoveFromWatchlist (lit "MSFT"))]
            {| Session.state := Sample.withWatchlist [Sample.msft];
               Session.stored := Some (JSON.stringify [Sample.msft]);
               Session.console := [] |}))
    = Some w'
    /\ watchlist (Session.state w') = [Sample.odd; Sample.nvda].
Proof.
  destruct (session_survives_restart false
              (Some (JSON.stringify [Sample.msft]))
              {| Session.state := Sample.withWatchlist [Sample.msft];
                 Session.stored := Some (JSON.stringify [Sample.msft]);
                 Session.console := [] |}
              [(SetStores, AddToWatchlist Sample.odd);
               (SetStores, AddToWatchlist Sample.nvda);
               (SetStores, RemoveFromWatchlist (lit "MSFT"))]
              ltac:(vm_compute; reflexivity)
              ltac:(repeat constructor)) as [_ H].
  destruct (H ltac:(repeat constructor; unfold wf_codeunit; reflexivity))
    as (w' & E & Hw & _).
  exists w'. split; [exact E | exact Hw].
Defined.

(** X16: when [setItem] throws, the handler's change of the state
    stands, the stored text stays what it was, and the failure is
    logged once; a handler call that hands no new array to
    [setWatchlist], such as add of a ticker that is present, writes
    and logs nothing. The next call that changes the watchlist and is
    written stores the whole watchlist, so that storage and state
    agree again. *)
Theorem failed_write_not_fatal :
  forall (a : Action) (w : Session.World),
    let w' := Session.act SetThrows a w in
    Session.state w' = run (effects a) (Session.state w)
    /\ Session.stored w' = Session.stored w
    /\ Session.console w'
       = Session.console w
         ++ (if Session.newWatchlist a (Session.state w)
             then [ConsoleError saveFailure QuotaExceededError] else [])
    /\ (forall (write : SetItem) (stock : Stock),
           isStockInWatchlist (Session.state w) (ticker stock) = true ->
           Session.act write (AddToWatchlist stock) w = w)
    /\ (forall a',
           Session.newWatchlist a' (Session.state w') = true ->
           Session.synced (Session.act SetStores a' w')).
Proof.
  intros a w w'. unfold w', Session.act.
  split; [| split; [| split; [| split]]].
  - destruct (Session.newWatchlist a (Session.state w)); reflexivity.
  - destruct (Session.newWatchlist a (Session.state w)); reflexivity.
  - destruct (Session.newWatchlist a (Session.state w));
      cbn; [| rewrite app_nil_r]; reflexivity.
  - intros write stock H. unfold isStockInWatchlist in H.
    cbn [Session.newWatchlist]. rewrite H. cbn [negb].
    cbn [effects handleAddToWatchlist run apply watchlist].
    unfold addUpdater. rewrite H. destruct w as [[] ? ?]. reflexivity.
  - intros a' N. unfold Session.synced. rewrite N, persistNow_stores.
    reflexivity.
Qed.

Lemma failed_write_not_fatal_witness :
  Session.act SetThrows (AddToWatchlist Sample.msft)
    {| Session.state := Sample.busy; Session.stored := None;
       Session.console := [] |}
  = {| Session.state := Sample.busy; Session.stored := None;
       Session.console := [] |}.
Proof.
  apply (proj1 (proj2 (proj2 (proj2
           (failed_write_not_fatal (ChangeView ViewSearch)
              {| Session.state := Sample.busy; Session.stored := None;
                 Session.console := [] |}))))).
  reflexivity.
Defined.

(** X17: two watchlists that differ are never written as the same
    text. *)
Theorem stringify_injective :
  forall (W1 W2 : list Stock),
    Forall wf_stock W1 -> Forall wf_stock W2 ->
    W1 <> W2 -> JSON.stringify W1 <> JSON.stringify W2.
Proof.
  intros W1 W2 H1 H2 N E. apply N.
  pose proof (JSONFacts.asWatchlist_parse_stringify W1 H1) as P1.
  pose proof (JSONFacts.asWatchlist_parse_stringify W2 H2) as P2.
  rewrite E in P1. rewrite P1 in P2. inversion P2. reflexivity.
Qed.

Lemma stringify_injective_witness :
  JSON.stringify [Sample.nvda; Sample.odd] <> JSON.stringify [Sample.odd; Sample.nvda].
Proof.
  apply (stringify_injective [Sample.nvda; Sample.odd] [Sample.odd; Sample.nvda]).
  - repeat constructor; unfold wf_codeunit; reflexivity.
  - repeat constructor; unfold wf_codeunit; reflexivity.
  - discriminate.
Defined.
